(** * basslab 1.5 — the tone generator widget of [script.js]

    A shallow embedding of the audio session logic (generator tone, test
    tone, panic stop) and of the frequency knob of [script.js], together
    with the properties of the specification that concern them.

    Conventions.
    - A JavaScript number is a [jsnum]: a finite value carried as an exact
      rational, or one of NaN, +Infinity, -Infinity.  Every finite double
      is a rational, and [Math.round], [Math.max] and [Math.min] are exact
      on doubles, so [setHz] is modelled without loss.  The knob mapping
      ([hzToAngle], [angleToHz]) and the time sums ([now + 0.06]) use
      exact rational arithmetic where the script uses double arithmetic;
      signed zero and overflow are not represented.
    - The host audio engine (Web Audio) is not part of the script.  Its
      nodes are records kept in the audio context; what the engine decides
      on its own (whether an [AudioContext] exists, what [gain.value]
      reads while an envelope runs, whether a scheduling call throws) is
      the interface [AudioEngine].
    - The script's closures only assign the top-level variables, so they
      are the three constructors of [callback].
    - Functions of the script that can be left by an exception are
      computations in the monad [JS]: a state transformer over [World]
      that completes normally or abruptly.
    - Between two calls time passes ([elapse]): the engine ends the
      oscillators whose stop time has come and calls the [onended] handler
      each of them carries at that moment. *)

From Stdlib Require Import QArith Qround Qabs ZArith Lia Lqa Bool String.
From stdpp Require Import base option list.

Open Scope Q_scope.

(** ** JavaScript numbers *)

Inductive jsnum : Type :=
| Num (q : Q)
| NaN
| PosInf
| NegInf.

Definition is_finite (x : jsnum) : bool :=
  match x with Num _ => true | _ => false end.

Definition Qsign (q : Q) : comparison := (Qnum q ?= 0)%Z.

Definition js_neg (a : jsnum) : jsnum :=
  match a with
  | Num x => Num (- x)
  | NaN => NaN
  | PosInf => NegInf
  | NegInf => PosInf
  end.

Definition js_add (a b : jsnum) : jsnum :=
  match a, b with
  | NaN, _ | _, NaN => NaN
  | PosInf, NegInf | NegInf, PosInf => NaN
  | PosInf, _ | _, PosInf => PosInf
  | NegInf, _ | _, NegInf => NegInf
  | Num x, Num y => Num (x + y)
  end.

Definition js_sub (a b : jsnum) : jsnum := js_add a (js_neg b).

(** Sign of a number that is not NaN; [Eq] for zero. *)
Definition js_sign (a : jsnum) : comparison :=
  match a with
  | Num x => Qsign x
  | PosInf => Gt
  | NegInf => Lt
  | NaN => Eq
  end.

Definition signed_inf (s1 s2 : comparison) : jsnum :=
  match s1, s2 with
  | Eq, _ | _, Eq => NaN
  | Gt, Gt | Lt, Lt => PosInf
  | _, _ => NegInf
  end.

Definition js_mul (a b : jsnum) : jsnum :=
  match a, b with
  | NaN, _ | _, NaN => NaN
  | Num x, Num y => Num (x * y)
  | _, _ => signed_inf (js_sign a) (js_sign b)
  end.

Definition js_div (a b : jsnum) : jsnum :=
  match a, b with
  | NaN, _ | _, NaN => NaN
  | Num x, Num y =>
      match Qsign y with
      | Eq => signed_inf (Qsign x) Gt
      | _ => Num (x / y)
      end
  | Num _, _ => Num 0
  | _, Num y => signed_inf (js_sign a) (match Qsign y with Lt => Lt | _ => Gt end)
  | _, _ => NaN
  end.

(** [Math.round]: the nearest integer, a tie going toward +Infinity. *)
Definition Math_round (a : jsnum) : jsnum :=
  match a with
  | Num x => Num (inject_Z (Qfloor (x + (1 # 2))))
  | _ => a
  end.

Definition Math_max (a b : jsnum) : jsnum :=
  match a, b with
  | NaN, _ | _, NaN => NaN
  | PosInf, _ | _, PosInf => PosInf
  | NegInf, x | x, NegInf => x
  | Num x, Num y => if Qle_bool x y then b else a
  end.

Definition Math_min (a b : jsnum) : jsnum :=
  match a, b with
  | NaN, _ | _, NaN => NaN
  | NegInf, _ | _, NegInf => NegInf
  | PosInf, x | x, PosInf => x
  | Num x, Num y => if Qle_bool x y then a else b
  end.

(** ** Frequency knob (20–120 Hz): the pure mapping *)

Definition MIN_HZ : jsnum := Num 20.
Definition MAX_HZ : jsnum := Num 120.

(** Map value to knob angle: -135° .. +135°. *)
Definition hzToAngle (hz : jsnum) : jsnum :=
  let t := js_div (js_sub hz MIN_HZ) (js_sub MAX_HZ MIN_HZ) in
  js_add (Num (-135)) (js_mul t (Num 270)).

Definition angleToHz (angle : jsnum) : jsnum :=
  let a := Math_max (Num (-135)) (Math_min (Num 135) angle) in
  let t := js_div (js_add a (Num 135)) (Num 270) in
  let hz := js_add MIN_HZ (js_mul t (js_sub MAX_HZ MIN_HZ)) in
  Math_round hz.

(** ** The host audio engine: nodes, parameters, the context *)

(** A scheduled change of an [AudioParam], as the three scheduling methods
    the script calls record it. *)
Inductive AutomationEvent : Type :=
| SetValueAtTime (value startTime : Q)
| LinearRampToValueAtTime (value endTime : Q)
| SetTargetAtTime (target startTime timeConstant : Q).

Definition event_time (e : AutomationEvent) : Q :=
  match e with
  | SetValueAtTime _ t => t
  | LinearRampToValueAtTime _ t => t
  | SetTargetAtTime _ t _ => t
  end.

(** [value] is what an assignment [param.value = v] stored last (or the
    node's default); [timeline] holds the scheduled changes, oldest first. *)
Record AudioParam : Type := mkParam {
  value : Q;
  timeline : list AutomationEvent
}.

Definition assign_value (v : Q) (p : AudioParam) : AudioParam :=
  mkParam v (timeline p).

Definition schedule (e : AutomationEvent) (p : AudioParam) : AudioParam :=
  mkParam (value p) (timeline p ++ [e]).

(** [cancelScheduledValues(t)] drops the changes scheduled at or after [t]. *)
Definition cancelScheduledValues (t : Q) (p : AudioParam) : AudioParam :=
  mkParam (value p)
          (filter (fun e => negb (Qle_bool t (event_time e))) (timeline p)).

Definition setValueAtTime (v t : Q) : AudioParam -> AudioParam :=
  schedule (SetValueAtTime v t).

Definition linearRampToValueAtTime (v t : Q) : AudioParam -> AudioParam :=
  schedule (LinearRampToValueAtTime v t).

Definition setTargetAtTime (v t tau : Q) : AudioParam -> AudioParam :=
  schedule (SetTargetAtTime v t tau).

(** The closures of the script that are handed to the engine:
    - [ReleaseGenerator]: [() => { genOsc = null; genGain = null; genLPF = null; }]
    - [ReleaseTestTone]:  [() => { testOsc = null; testGain = null; }]
    - [TestToneEnded]:    the [onended] handler installed by [playTestTone]. *)
Inductive callback : Type :=
| ReleaseGenerator
| ReleaseTestTone
| TestToneEnded.

Inductive OscillatorType : Type := sine | square | sawtooth | triangle.
Inductive BiquadFilterType : Type := lowpass | highpass | bandpass.

Record OscillatorNode : Type := mkOsc {
  osc_type : OscillatorType;
  frequency : AudioParam;
  started : bool;
  stopAt : option Q;
  onended : option callback;
  ended : bool
}.

Record GainNode : Type := mkGain {
  gain : AudioParam
}.

Record BiquadFilterNode : Type := mkBiquad {
  filter_type : BiquadFilterType;
  filter_frequency : AudioParam;
  filter_Q : AudioParam
}.

Inductive endpoint : Type :=
| OscOut (o : nat)
| FilterIO (f : nat)
| GainIO (g : nat)
| Destination.

(** The audio context owns the clock and every node it created; a node is
    referred to by its index in the list of its kind. *)
Record AudioContext : Type := mkCtx {
  currentTime : Q;
  oscs : list OscillatorNode;
  gains : list GainNode;
  filters : list BiquadFilterNode;
  wires : list (endpoint * endpoint)
}.

Definition new_context : AudioContext := mkCtx 0 [] [] [] [].

(** Nodes as the engine creates them (Web Audio defaults). *)
Definition default_osc : OscillatorNode :=
  mkOsc sine (mkParam 440 []) false None None false.
Definition default_gain : GainNode := mkGain (mkParam 1 []).
Definition default_biquad : BiquadFilterNode :=
  mkBiquad lowpass (mkParam 350 []) (mkParam 1 []).

Definition with_time (t : Q) (c : AudioContext) : AudioContext :=
  mkCtx t (oscs c) (gains c) (filters c) (wires c).
Definition with_oscs (l : list OscillatorNode) (c : AudioContext) : AudioContext :=
  mkCtx (currentTime c) l (gains c) (filters c) (wires c).
Definition with_gains (l : list GainNode) (c : AudioContext) : AudioContext :=
  mkCtx (currentTime c) (oscs c) l (filters c) (wires c).
Definition with_filters (l : list BiquadFilterNode) (c : AudioContext) : AudioContext :=
  mkCtx (currentTime c) (oscs c) (gains c) l (wires c).
Definition with_wires (l : list (endpoint * endpoint)) (c : AudioContext) : AudioContext :=
  mkCtx (currentTime c) (oscs c) (gains c) (filters c) l.

Definition on_osc (f : OscillatorNode -> OscillatorNode) (o : nat)
    (c : AudioContext) : AudioContext :=
  with_oscs (alter f o (oscs c)) c.

Definition on_gain (f : AudioParam -> AudioParam) (g : nat)
    (c : AudioContext) : AudioContext :=
  with_gains (alter (fun n => mkGain (f (gain n))) g (gains c)) c.

Definition on_filter (f : BiquadFilterNode -> BiquadFilterNode) (i : nat)
    (c : AudioContext) : AudioContext :=
  with_filters (alter f i (filters c)) c.

Definition on_frequency (f : AudioParam -> AudioParam) (n : OscillatorNode)
    : OscillatorNode :=
  mkOsc (osc_type n) (f (frequency n)) (started n) (stopAt n) (onended n) (ended n).
Definition set_osc_type (t : OscillatorType) (n : OscillatorNode) : OscillatorNode :=
  mkOsc t (frequency n) (started n) (stopAt n) (onended n) (ended n).
Definition osc_start (n : OscillatorNode) : OscillatorNode :=
  mkOsc (osc_type n) (frequency n) true (stopAt n) (onended n) (ended n).
Definition osc_stop (t : Q) (n : OscillatorNode) : OscillatorNode :=
  mkOsc (osc_type n) (frequency n) (started n) (Some t) (onended n) (ended n).
Definition set_onended (h : option callback) (n : OscillatorNode) : OscillatorNode :=
  mkOsc (osc_type n) (frequency n) (started n) (stopAt n) h (ended n).
Definition mark_ended (n : OscillatorNode) : OscillatorNode :=
  mkOsc (osc_type n) (frequency n) (started n) (stopAt n) (onended n) true.

Definition connect (src dst : endpoint) (c : AudioContext) : AudioContext :=
  with_wires (wires c ++ [(src, dst)]) c.

(** The four scheduling calls inside the [try] block of [softStopNode]. *)
Inductive sched_step : Type := AtCancel | AtSetValue | AtRamp | AtStop.

Definition sched_step_eqb (a b : sched_step) : bool :=
  match a, b with
  | AtCancel, AtCancel | AtSetValue, AtSetValue
  | AtRamp, AtRamp | AtStop, AtStop => true
  | _, _ => false
  end.

(** What the script cannot decide.
    - [has_AudioContext]: [window.AudioContext || window.webkitAudioContext]
      is a constructor.
    - [gain_reading g t]: what reading [gain.value] of the gain node [g]
      returns at time [t] (the engine's current value of the envelope).
    - [rejects o]: the scheduling call, if any, at which the engine throws
      when the oscillator [o] is soft-stopped. *)
Class AudioEngine : Type := {
  has_AudioContext : bool;
  gain_reading : nat -> Q -> Q;
  rejects : nat -> option sched_step
}.

(** ** The script's state *)

(** The top-level variables of the script, and the part of the page it
    writes.  An element that is missing from the page is [None]; one that is
    present carries the number the script displayed in it last: the readout
    text, the knob's [aria-valuenow], the indicator's rotation in degrees.
    [active_audio] is the class of that name on [document.body]. *)
Record World : Type := mkWorld {
  audioContext : option AudioContext;
  genOsc : option nat;
  genGain : option nat;
  genLPF : option nat;
  genRunning : bool;
  testOsc : option nat;
  testGain : option nat;
  testRunning : bool;
  currentHz : jsnum;
  readoutEl : option jsnum;
  knobEl : option jsnum;
  indicatorEl : option jsnum;
  active_audio : bool
}.

Definition set_audioContext (v : option AudioContext) (w : World) : World :=
  mkWorld v (genOsc w) (genGain w) (genLPF w) (genRunning w) (testOsc w)
          (testGain w) (testRunning w) (currentHz w) (readoutEl w) (knobEl w)
          (indicatorEl w) (active_audio w).
Definition set_genOsc (v : option nat) (w : World) : World :=
  mkWorld (audioContext w) v (genGain w) (genLPF w) (genRunning w) (testOsc w)
          (testGain w) (testRunning w) (currentHz w) (readoutEl w) (knobEl w)
          (indicatorEl w) (active_audio w).
Definition set_genGain (v : option nat) (w : World) : World :=
  mkWorld (audioContext w) (genOsc w) v (genLPF w) (genRunning w) (testOsc w)
          (testGain w) (testRunning w) (currentHz w) (readoutEl w) (knobEl w)
          (indicatorEl w) (active_audio w).
Definition set_genLPF (v : option nat) (w : World) : World :=
  mkWorld (audioContext w) (genOsc w) (genGain w) v (genRunning w) (testOsc w)
          (testGain w) (testRunning w) (currentHz w) (readoutEl w) (knobEl w)
          (indicatorEl w) (active_audio w).
Definition set_genRunning (v : bool) (w : World) : World :=
  mkWorld (audioContext w) (genOsc w) (genGain w) (genLPF w) v (testOsc w)
          (testGain w) (testRunning w) (currentHz w) (readoutEl w) (knobEl w)
          (indicatorEl w) (active_audio w).
Definition set_testOsc (v : option nat) (w : World) : World :=
  mkWorld (audioContext w) (genOsc w) (genGain w) (genLPF w) (genRunning w) v
          (testGain w) (testRunning w) (currentHz w) (readoutEl w) (knobEl w)
          (indicatorEl w) (active_audio w).
Definition set_testGain (v : option nat) (w : World) : World :=
  mkWorld (audioContext w) (genOsc w) (genGain w) (genLPF w) (genRunning w)
          (testOsc w) v (testRunning w) (currentHz w) (readoutEl w) (knobEl w)
          (indicatorEl w) (active_audio w).
Definition set_testRunning (v : bool) (w : World) : World :=
  mkWorld (audioContext w) (genOsc w) (genGain w) (genLPF w) (genRunning w)
          (testOsc w) (testGain w) v (currentHz w) (readoutEl w) (knobEl w)
          (indicatorEl w) (active_audio w).
Definition set_currentHz (v : jsnum) (w : World) : World :=
  mkWorld (audioContext w) (genOsc w) (genGain w) (genLPF w) (genRunning w)
          (testOsc w) (testGain w) (testRunning w) v (readoutEl w) (knobEl w)
          (indicatorEl w) (active_audio w).
Definition set_readoutEl (v : option jsnum) (w : World) : World :=
  mkWorld (audioContext w) (genOsc w) (genGain w) (genLPF w) (genRunning w)
          (testOsc w) (testGain w) (testRunning w) (currentHz w) v (knobEl w)
          (indicatorEl w) (active_audio w).
Definition set_knobEl (v : option jsnum) (w : World) : World :=
  mkWorld (audioContext w) (genOsc w) (genGain w) (genLPF w) (genRunning w)
          (testOsc w) (testGain w) (testRunning w) (currentHz w) (readoutEl w) v
          (indicatorEl w) (active_audio w).
Definition set_indicatorEl (v : option jsnum) (w : World) : World :=
  mkWorld (audioContext w) (genOsc w) (genGain w) (genLPF w) (genRunning w)
          (testOsc w) (testGain w) (testRunning w) (currentHz w) (readoutEl w)
          (knobEl w) v (active_audio w).
Definition set_active_audio (v : bool) (w : World) : World :=
  mkWorld (audioContext w) (genOsc w) (genGain w) (genLPF w) (genRunning w)
          (testOsc w) (testGain w) (testRunning w) (currentHz w) (readoutEl w)
          (knobEl w) (indicatorEl w) v.

(** ** Computations of the script *)

Inductive exn : Type := TypeError | EngineError.

Inductive completion (A : Type) : Type :=
| Normal (a : A)
| Throw (e : exn).
Arguments Normal {A} a.
Arguments Throw {A} e.

Definition JS (A : Type) : Type := World -> completion A * World.

Definition ret {A : Type} (a : A) : JS A := fun w => (Normal a, w).

Definition bind {A B : Type} (m : JS A) (k : A -> JS B) : JS B :=
  fun w =>
    match m w with
    | (Normal a, w') => k a w'
    | (Throw e, w') => (Throw e, w')
    end.

Definition throw {A : Type} (e : exn) : JS A := fun w => (Throw e, w).

Definition read {A : Type} (f : World -> A) : JS A := fun w => (Normal (f w), w).

Definition write (f : World -> World) : JS unit := fun w => (Normal tt, f w).

(** [try { body } catch { handler }]: what [body] did before it threw stays. *)
Definition try_catch (body handler : JS unit) : JS unit :=
  fun w =>
    match body w with
    | (Normal a, w') => (Normal a, w')
    | (Throw _, w') => handler w'
    end.

Declare Scope js_scope.
Delimit Scope js_scope with js.
Notation "x <- m ; k" := (bind m (fun x => k))
  (at level 100, m at next level, k at level 200, right associativity) : js_scope.
Notation "m ;; k" := (bind m (fun _ => k))
  (at level 100, k at level 200, right associativity) : js_scope.
Open Scope js_scope.

(** Conversion of an argument to a Web IDL [float] or [double]: a value that
    is not finite is refused with a [TypeError]. *)
Definition to_float (x : jsnum) : JS Q :=
  match x with
  | Num q => ret q
  | _ => throw TypeError
  end.

(** A method call or property write on the context held in [audioContext];
    on [null] it is a [TypeError]. *)
Definition engine (f : AudioContext -> AudioContext) : JS unit :=
  fun w =>
    match audioContext w with
    | Some c => (Normal tt, set_audioContext (Some (f c)) w)
    | None => (Throw TypeError, w)
    end.

Definition ctx_currentTime : JS Q :=
  fun w =>
    match audioContext w with
    | Some c => (Normal (currentTime c), w)
    | None => (Throw TypeError, w)
    end.

Definition createOscillator : JS nat :=
  fun w =>
    match audioContext w with
    | Some c => (Normal (length (oscs c)),
                 set_audioContext (Some (with_oscs (oscs c ++ [default_osc]) c)) w)
    | None => (Throw TypeError, w)
    end.

Definition createGain : JS nat :=
  fun w =>
    match audioContext w with
    | Some c => (Normal (length (gains c)),
                 set_audioContext (Some (with_gains (gains c ++ [default_gain]) c)) w)
    | None => (Throw TypeError, w)
    end.

Definition createBiquadFilter : JS nat :=
  fun w =>
    match audioContext w with
    | Some c => (Normal (length (filters c)),
                 set_audioContext
                   (Some (with_filters (filters c ++ [default_biquad]) c)) w)
    | None => (Throw TypeError, w)
    end.

(** The closures, run. *)
Definition invoke (cb : callback) (w : World) : World :=
  match cb with
  | ReleaseGenerator =>
      set_genLPF None (set_genGain None (set_genOsc None w))
  | ReleaseTestTone =>
      set_testGain None (set_testOsc None w)
  | TestToneEnded =>
      set_active_audio false
        (set_testGain None (set_testOsc None (set_testRunning false w)))
  end.

Definition invoke_all (cbs : list callback) (w : World) : World :=
  fold_left (fun w cb => invoke cb w) cbs w.

(** ** Passing of time: the engine ends oscillators and notifies *)

(** An oscillator that was started ends once the clock reaches the time
    given to [stop]; the engine then calls its [onended] handler, once. *)
Definition due (t : Q) (n : OscillatorNode) : bool :=
  started n && negb (ended n) &&
  match stopAt n with
  | Some ts => Qle_bool ts t
  | None => false
  end.

Definition notification (t : Q) (n : OscillatorNode) : option callback :=
  if due t n then onended n else None.

Definition finish (t : Q) (n : OscillatorNode) : OscillatorNode :=
  if due t n then mark_ended n else n.

(** The clock does not run backwards. *)
Definition forward (dt : Q) : Q := if Qle_bool 0 dt then dt else 0.

(** The context at time [t]: the oscillators that became due have ended. *)
Definition at_time (t : Q) (c : AudioContext) : AudioContext :=
  with_time t (with_oscs (finish t <$> oscs c) c).

(** [dt] seconds pass with no call of the script other than the [onended]
    handlers that become due. *)
Definition elapse (dt : Q) (w : World) : World :=
  match audioContext w with
  | None => w
  | Some c =>
      let t := currentTime c + forward dt in
      invoke_all (omap (notification t) (oscs c))
                 (set_audioContext (Some (at_time t c)) w)
  end.

(** Time passes in several steps, with no call in between. *)
Definition wait (dts : list Q) (w : World) : World :=
  fold_left (fun w dt => elapse dt w) dts w.

Definition total (dts : list Q) : Q :=
  fold_right (fun dt s => forward dt + s) 0 dts.

Section Script.

Context {host : AudioEngine}.

Definition ensureContext : JS unit :=
  ctx <- read audioContext ;
  match ctx with
  | Some _ => ret tt
  | None =>
      if has_AudioContext
      then write (set_audioContext (Some new_context))
      else throw TypeError
  end.

(** One of the scheduling calls on behalf of the soft stop of [osc]: the
    engine throws if it rejects that call. *)
Definition scheduling (step : sched_step) (osc : nat) (call : JS unit) : JS unit :=
  match rejects osc with
  | Some s => if sched_step_eqb s step then throw EngineError else call
  | None => call
  end.

(** [gain.gain.value] *)
Definition gain_gain_value (g : nat) : JS Q :=
  now <- ctx_currentTime ;
  ret (gain_reading g now).

Definition softStopNode (osc gain : nat) (onDone : callback) : JS unit :=
  try_catch
    (now <- ctx_currentTime ;
     scheduling AtCancel osc (engine (on_gain (cancelScheduledValues now) gain)) ;;
     v <- gain_gain_value gain ;
     scheduling AtSetValue osc (engine (on_gain (setValueAtTime v now) gain)) ;;
     scheduling AtRamp osc
       (engine (on_gain (linearRampToValueAtTime 0 (now + 0.06)) gain)) ;;
     scheduling AtStop osc (engine (on_osc (osc_stop (now + 0.07)) osc)) ;;
     engine (on_osc (set_onended (Some onDone)) osc))
    (write (invoke onDone)).

Definition stopAllAudio : JS unit :=
  ctx <- read audioContext ;
  match ctx with
  | None => ret tt
  | Some _ =>
      (gr <- read genRunning ; go <- read genOsc ; gg <- read genGain ;
       match gr, go, gg with
       | true, Some o, Some g =>
           write (set_genRunning false) ;;
           softStopNode o g ReleaseGenerator
       | _, _, _ => ret tt
       end) ;;
      (tr <- read testRunning ; to <- read testOsc ; tg <- read testGain ;
       match tr, to, tg with
       | true, Some o, Some g =>
           write (set_testRunning false) ;;
           softStopNode o g ReleaseTestTone
       | _, _, _ => ret tt
       end) ;;
      write (set_active_audio false)
  end.

Definition setHz (hz : jsnum) : JS unit :=
  write (set_currentHz (Math_max MIN_HZ (Math_min MAX_HZ (Math_round hz)))) ;;
  write (fun w => set_readoutEl (option_map (fun _ => currentHz w) (readoutEl w)) w) ;;
  write (fun w => set_knobEl (option_map (fun _ => currentHz w) (knobEl w)) w) ;;
  write (fun w =>
           set_indicatorEl
             (option_map (fun _ => hzToAngle (currentHz w)) (indicatorEl w)) w) ;;
  (* If generator is running, update oscillator frequency smoothly *)
  gr <- read genRunning ; ctx <- read audioContext ; go <- read genOsc ;
  match gr, ctx, go with
  | true, Some c, Some o =>
      let now := currentTime c in
      hz' <- read currentHz ;
      target <- to_float hz' ;
      engine (on_osc (on_frequency (setTargetAtTime target now 0.02)) o)
  | _, _, _ => ret tt
  end.

Definition startGenerator : JS unit :=
  gr <- read genRunning ;
  if gr then ret tt else
  (* Stop test tone if running *)
  tr <- read testRunning ;
  (if tr then stopAllAudio else ret tt) ;;
  ensureContext ;;
  o <- createOscillator ; write (set_genOsc (Some o)) ;;
  g <- createGain ; write (set_genGain (Some g)) ;;
  f <- createBiquadFilter ; write (set_genLPF (Some f)) ;;
  engine (on_osc (set_osc_type sine) o) ;;
  hz <- read currentHz ;
  v <- to_float hz ;
  engine (on_osc (on_frequency (assign_value v)) o) ;;
  engine (on_filter (fun n => mkBiquad lowpass (filter_frequency n) (filter_Q n)) f) ;;
  engine (on_filter (fun n =>
            mkBiquad (filter_type n) (assign_value 120 (filter_frequency n)) (filter_Q n)) f) ;;
  engine (on_filter (fun n =>
            mkBiquad (filter_type n) (filter_frequency n) (assign_value 0.707 (filter_Q n))) f) ;;
  (* Start silent then fade in to avoid clicks *)
  now <- ctx_currentTime ;
  engine (on_gain (setValueAtTime 0 now) g) ;;
  engine (connect (OscOut o) (FilterIO f)) ;;
  engine (connect (FilterIO f) (GainIO g)) ;;
  engine (connect (GainIO g) Destination) ;;
  engine (on_osc osc_start o) ;;
  (* soft fade in *)
  now' <- ctx_currentTime ;
  engine (on_gain (linearRampToValueAtTime 0.25 (now' + 0.08)) g) ;;
  write (set_genRunning true) ;;
  write (set_active_audio true).

Definition stopGenerator : JS unit :=
  gr <- read genRunning ; ctx <- read audioContext ;
  go <- read genOsc ; gg <- read genGain ;
  match gr, ctx, go, gg with
  | true, Some _, Some o, Some g =>
      write (set_genRunning false) ;;
      softStopNode o g ReleaseGenerator ;;
      write (set_active_audio false)
  | _, _, _, _ => ret tt
  end.

Definition playTestTone : JS unit :=
  tr <- read testRunning ;
  if tr then ret tt else
  (* Stop generator if running *)
  gr <- read genRunning ;
  (if gr then stopGenerator else ret tt) ;;
  ensureContext ;;
  o <- createOscillator ; write (set_testOsc (Some o)) ;;
  g <- createGain ; write (set_testGain (Some g)) ;;
  engine (on_osc (set_osc_type sine) o) ;;
  engine (on_osc (on_frequency (assign_value 3030)) o) ;;
  now <- ctx_currentTime ;
  engine (on_gain (setValueAtTime 0 now) g) ;;
  engine (connect (OscOut o) (GainIO g)) ;;
  engine (connect (GainIO g) Destination) ;;
  engine (on_osc osc_start o) ;;
  t1 <- ctx_currentTime ;
  engine (on_gain (linearRampToValueAtTime 0.20 (t1 + 0.08)) g) ;;
  t2 <- ctx_currentTime ;
  engine (on_gain (setValueAtTime 0.20 (t2 + 8.8)) g) ;;
  t3 <- ctx_currentTime ;
  engine (on_gain (linearRampToValueAtTime 0 (t3 + 9)) g) ;;
  t4 <- ctx_currentTime ;
  engine (on_osc (osc_stop (t4 + 9)) o) ;;
  write (set_testRunning true) ;;
  write (set_active_audio true) ;;
  engine (on_osc (set_onended (Some TestToneEnded)) o).

(** ** The page as a transition system *)

(** What can happen to the page: a click on one of the buttons, a request
    for a frequency (knob drag or key), or time passing. *)
Inductive action : Type :=
| StartGenerator
| StopGenerator
| PlayTestTone
| Panic
| SetHz (v : jsnum)
| Elapse (dt : Q).

(** An exception that leaves an event handler ends that handler only; the
    variables keep what the handler wrote before. *)
Definition perform (a : action) (w : World) : World :=
  match a with
  | StartGenerator => snd (startGenerator w)
  | StopGenerator => snd (stopGenerator w)
  | PlayTestTone => snd (playTestTone w)
  | Panic => snd (stopAllAudio w)
  | SetHz v => snd (setHz v w)
  | Elapse dt => elapse dt w
  end.

Definition run (l : list action) (w : World) : World :=
  fold_left (fun w a => perform a w) l w.

(** The calls among the actions: everything but the passing of time. *)
Definition is_call (a : action) : bool :=
  match a with
  | Elapse _ => false
  | _ => true
  end.

(** The variables as the script declares them, on a page whose readout, knob
    and indicator elements are as given. *)
Definition declared (readout knob indicator : option jsnum) : World :=
  mkWorld None None None None false None None false (Num 30)
          readout knob indicator false.

(** The state once the [DOMContentLoaded] handler has run: [setHz(currentHz)]. *)
Definition loaded (readout knob indicator : option jsnum) : World :=
  let w := declared readout knob indicator in snd (setHz (currentHz w) w).

End Script.

(** * Vocabulary of the specification *)

(** [clamp(x, lo, hi)], and "rounded to the nearest integer". *)
Definition clamp (x lo hi : Z) : Z := Z.max lo (Z.min hi x).

Definition nearest_integer (v : Q) (n : Z) : Prop :=
  Qabs (v - inject_Z n) <= 1 # 2.

(** The integer [Math.round] picks for a finite value. *)
Definition round_half_up (v : Q) : Z := Qfloor (v + (1 # 2)).

(** What [setHz] assigns to [currentHz]. *)
Definition stored_for (hz : jsnum) : jsnum :=
  Math_max MIN_HZ (Math_min MAX_HZ (Math_round hz)).

(** The session state [Idle]: neither source is running. *)
Definition Idle (w : World) : Prop :=
  genRunning w = false /\ testRunning w = false.

(** The session variables: what a no-op must leave as it is. *)
Definition same_session (w w' : World) : Prop :=
  audioContext w' = audioContext w /\
  genRunning w' = genRunning w /\ testRunning w' = testRunning w /\
  genOsc w' = genOsc w /\ genGain w' = genGain w /\ genLPF w' = genLPF w /\
  testOsc w' = testOsc w /\ testGain w' = testGain w /\
  currentHz w' = currentHz w.

(** The session state [GeneratorActive]: the generator is the running
    source and the script holds its oscillator [o] (node [n], sounding) and
    its gain [g] (node [gn]) in the context [c]. *)
Record GeneratorActive (w : World) (c : AudioContext) (o g : nat)
    (n : OscillatorNode) (gn : GainNode) : Prop := {
  ga_context : audioContext w = Some c;
  ga_running : genRunning w = true;
  ga_alone : testRunning w = false;
  ga_osc : genOsc w = Some o;
  ga_gain : genGain w = Some g;
  ga_osc_node : oscs c !! o = Some n;
  ga_started : started n = true;
  ga_sounding : ended n = false;
  ga_gain_node : gains c !! g = Some gn
}.

(** At most one source is running. *)
Definition exclusive (w : World) : Prop :=
  genRunning w = false \/ testRunning w = false.

(** A source that is running is held: the context exists and the variables
    of the source refer to its oscillator and its gain. *)
Definition held (w : World) : Prop :=
  (genRunning w = true ->
   audioContext w <> None /\ genOsc w <> None /\ genGain w <> None) /\
  (testRunning w = true ->
   audioContext w <> None /\ testOsc w <> None /\ testGain w <> None).


(** The envelope of the test tone started at [now]. *)
Definition test_tone_envelope (now : Q) : AudioParam :=
  mkParam 1 [SetValueAtTime 0 now;
             LinearRampToValueAtTime 0.20 (now + 0.08);
             SetValueAtTime 0.20 (now + 8.8);
             LinearRampToValueAtTime 0 (now + 9)].

(** The context a call finds or creates. *)
Definition context_of (w : World) : AudioContext :=
  default new_context (audioContext w).

(** The oscillator of the test tone started at [now]: a sine fixed at
    3030 Hz, started, to stop at [now + 9], notifying [TestToneEnded]. *)
Definition test_tone_osc (now : Q) : OscillatorNode :=
  mkOsc sine (mkParam 3030 []) true (Some (now + 9)) (Some TestToneEnded) false.

(** The context [c0] once [playTestTone] has added the test tone to it. *)
Definition test_tone_started (c0 : AudioContext) : AudioContext :=
  let o := length (oscs c0) in
  let g := length (gains c0) in
  mkCtx (currentTime c0)
        (oscs c0 ++ [test_tone_osc (currentTime c0)])
        (gains c0 ++ [mkGain (test_tone_envelope (currentTime c0))])
        (filters c0)
        (wires c0 ++ [(OscOut o, GainIO g); (GainIO g, Destination)]).

(** The context [c0] once [startGenerator] has added the generator at
    [q] Hz to it: oscillator, low-pass at 120 Hz with Q 0.707, gain faded in
    from 0 to 0.25 in 80 ms. *)
Definition generator_started (q : Q) (c0 : AudioContext) : AudioContext :=
  let o := length (oscs c0) in
  let g := length (gains c0) in
  let f := length (filters c0) in
  let now := currentTime c0 in
  mkCtx now
        (oscs c0 ++ [mkOsc sine (mkParam q []) true None None false])
        (gains c0 ++ [mkGain (mkParam 1 [SetValueAtTime 0 now;
                                         LinearRampToValueAtTime 0.25 (now + 0.08)])])
        (filters c0 ++ [mkBiquad lowpass (mkParam 120 []) (mkParam 0.707 [])])
        (wires c0 ++ [(OscOut o, FilterIO f); (FilterIO f, GainIO g);
                      (GainIO g, Destination)]).

Section SessionVocabulary.

Context {host : AudioEngine}.

(** The context after the five statements of the [try] block of
    [softStopNode] ran without an exception. *)
Definition soft_stopped (osc g : nat) (onDone : callback) (c : AudioContext)
    : AudioContext :=
  let now := currentTime c in
  on_osc (set_onended (Some onDone)) osc
    (on_osc (osc_stop (now + 0.07)) osc
      (on_gain (linearRampToValueAtTime 0 (now + 0.06)) g
        (on_gain (setValueAtTime (gain_reading g now) now) g
          (on_gain (cancelScheduledValues now) g c)))).



(** A context exists already or the engine can create one. *)
Definition context_available (w : World) : Prop :=
  audioContext w <> None \/ has_AudioContext = true.

End SessionVocabulary.

(** ** Engines and runs used as concrete inputs *)

(** An engine that has an [AudioContext], reads every envelope at 0.25 and
    accepts every scheduling call. *)
Definition steady_engine : AudioEngine :=
  {| has_AudioContext := true;
     gain_reading := fun _ _ => 0.25;
     rejects := fun _ => None |}.

(** An engine that throws at the scheduling call [k] of every soft stop. *)
Definition rejecting_engine (k : sched_step) : AudioEngine :=
  {| has_AudioContext := true;
     gain_reading := fun _ _ => 0.25;
     rejects := fun _ => Some k |}.

(** A page with its readout, knob and indicator, once loaded. *)
Definition page : World :=
  loaded (Some (Num 0)) (Some (Num 0)) (Some (Num 0)).

(** The page with the generator started at 30 Hz, and the nodes it holds. *)
Definition generator_playing : World :=
  run (host := steady_engine) [StartGenerator] page.

Definition playing_context : AudioContext := generator_started 30 new_context.

Definition playing_osc : OscillatorNode :=
  mkOsc sine (mkParam 30 []) true None None false.

Definition playing_gain : GainNode :=
  mkGain (mkParam 1 [SetValueAtTime 0 0; LinearRampToValueAtTime 0.25 (0 + 0.08)]).

(** The test tone is stopped by the panic button and played again at once;
    70 ms later the first oscillator ends. *)
Definition stale_test_release : list action :=
  [PlayTestTone; Panic; PlayTestTone; Elapse 0.07].

(** The generator is stopped and started again at once; 70 ms later the
    first oscillator ends. *)
Definition stale_generator_release : list action :=
  [StartGenerator; StopGenerator; StartGenerator; Elapse 0.07].

(** * Keyboard and pointer handlers *)

(** [if (cond) { ... }] with no [else]. *)
Definition when (b : bool) (m : JS unit) : JS unit := if b then m else ret tt.

(** The [keydown] handler of the knob, for the key [e.key]. *)
Definition keydown (key : string) : JS unit :=
  when (String.eqb key "ArrowUp" || String.eqb key "ArrowRight")
       (hz <- read currentHz ; setHz (js_add hz (Num 1))) ;;
  when (String.eqb key "ArrowDown" || String.eqb key "ArrowLeft")
       (hz <- read currentHz ; setHz (js_sub hz (Num 1))) ;;
  when (String.eqb key "PageUp")
       (hz <- read currentHz ; setHz (js_add hz (Num 5))) ;;
  when (String.eqb key "PageDown")
       (hz <- read currentHz ; setHz (js_sub hz (Num 5))) ;;
  when (String.eqb key "Home") (setHz MIN_HZ) ;;
  when (String.eqb key "End") (setHz MAX_HZ).

(** What [getBoundingClientRect] returns for the knob, and the position a
    mouse event or the first touch of a touch event carries. *)
Record DOMRect : Type := mkRect {
  rect_left : Q;
  rect_top : Q;
  rect_width : Q;
  rect_height : Q
}.

Record pointer : Type := mkPointer {
  knob_rect : DOMRect;
  clientX : Q;
  clientY : Q
}.

(** [Math.atan2(dy, dx) * (180 / Math.PI)]: the one computation of the script
    that has no rational value; it is left to the interface. *)
Class MathLib : Type := {
  atan2_degrees : Q -> Q -> Q
}.

(** The variables of the drag, and whether the listeners that [mousedown]
    and [touchstart] put on [window] are installed. *)
Record Ui : Type := mkUi {
  session : World;
  dragging : bool;
  mouse_listening : bool;
  touch_listening : bool
}.

Inductive pointer_event : Type :=
| MouseDown (p : pointer)
| MouseMove (p : pointer)
| MouseUp
| TouchStart (p : pointer)
| TouchMove (p : pointer)
| TouchEnd.

Section Pointer.

Context {math : MathLib}.

Definition getAngleFromPointer (p : pointer) : Q :=
  let rect := knob_rect p in
  let cx := rect_left rect + rect_width rect / 2 in
  let cy := rect_top rect + rect_height rect / 2 in
  let dx := clientX p - cx in
  let dy := clientY p - cy in
  (* atan2 gives angle where 0 is +x axis; we want 0 at top. *)
  let deg := atan2_degrees dy dx in
  let deg := deg + 90 in
  (* Normalize to -180..180 *)
  if negb (Qle_bool deg 180) then deg - 360 else deg.

Definition pointerMove (p : pointer) (u : Ui) : completion unit * Ui :=
  if negb (dragging u) then (Normal tt, u) else
  match knobEl (session u) with
  | None => (Throw TypeError, u)
  | Some _ =>
      let angle := getAngleFromPointer p in
      (* Use only the sweep portion (-135..135). Outside that, clamp. *)
      let hz := angleToHz (Num angle) in
      let r := setHz hz (session u) in
      (fst r, mkUi (snd r) (dragging u) (mouse_listening u) (touch_listening u))
  end.

Definition pointerUp (u : Ui) : Ui := mkUi (session u) false false false.

(** The pointer events as the page receives them: the knob has its listeners
    when it exists, [window] has those the knob's listeners installed. *)
Definition dispatch (e : pointer_event) (u : Ui) : Ui :=
  match e with
  | MouseDown p =>
      match knobEl (session u) with
      | None => u
      | Some _ =>
          let u1 := mkUi (session u) true (mouse_listening u) (touch_listening u) in
          match pointerMove p u1 with
          | (Normal _, u2) => mkUi (session u2) (dragging u2) true (touch_listening u2)
          | (Throw _, u2) => u2
          end
      end
  | TouchStart p =>
      match knobEl (session u) with
      | None => u
      | Some _ =>
          let u1 := mkUi (session u) true (mouse_listening u) (touch_listening u) in
          match pointerMove p u1 with
          | (Normal _, u2) => mkUi (session u2) (dragging u2) (mouse_listening u2) true
          | (Throw _, u2) => u2
          end
      end
  | MouseMove p => if mouse_listening u then snd (pointerMove p u) else u
  | TouchMove p => if touch_listening u then snd (pointerMove p u) else u
  | MouseUp => if mouse_listening u then pointerUp u else u
  | TouchEnd => if touch_listening u then pointerUp u else u
  end.

Definition gestures (l : list pointer_event) (u : Ui) : Ui :=
  fold_left (fun u e => dispatch e u) l u.

End Pointer.

(** The page before any drag. *)
Definition at_rest (w : World) : Ui := mkUi w false false false.

(** ** Further vocabulary *)

(** The angle [angleToHz] works with: its argument clamped to the sweep. *)
Definition sweep (a : Q) : Q :=
  if Qle_bool 135 a then 135 else if Qle_bool (-135) a then a else -135.

(** A frequency setting: an integer number of Hz from 20 to 120. *)
Definition frequency_setting (x : jsnum) : Prop :=
  exists z : Z, x = Num (inject_Z z) /\ (20 <= z <= 120)%Z.

(** The stored frequency and what the page displays of it. *)
Definition same_knob (w w' : World) : Prop :=
  currentHz w' = currentHz w /\ readoutEl w' = readoutEl w /\
  knobEl w' = knobEl w /\ indicatorEl w' = indicatorEl w.

(** The display agrees with the stored frequency: the elements that exist
    show [currentHz], the indicator is turned to [hzToAngle(currentHz)]. *)
Definition display_in_sync (w : World) : Prop :=
  readoutEl w = option_map (fun _ => currentHz w) (readoutEl w) /\
  knobEl w = option_map (fun _ => currentHz w) (knobEl w) /\
  indicatorEl w = option_map (fun _ => hzToAngle (currentHz w)) (indicatorEl w).

(** The indicator is lit only while a source is running. *)
Definition lit_only_running (w : World) : Prop :=
  active_audio w = true -> genRunning w = true \/ testRunning w = true.

(** No request of the run is NaN. *)
Definition no_NaN_request (a : action) : bool :=
  match a with
  | SetHz NaN => false
  | _ => true
  end.

(** A mathematical library that is exact on the four axes. *)
Definition axis_math : MathLib :=
  {| atan2_degrees := fun dy dx =>
       match Qsign dx, Qsign dy with
       | Gt, Eq => 0
       | Eq, Gt => 90
       | Lt, Eq => 180
       | Eq, Lt => -90
       | _, _ => 0
       end |}.

(** ** The two start transitions *)

Section StartTransitions.

Context {host : AudioEngine}.

(** What [startGenerator] does once it has stopped the test tone: from
    [ensureContext()] to the end of the function. *)
Definition beginGenerator : JS unit :=
  ensureContext ;;
  o <- createOscillator ; write (set_genOsc (Some o)) ;;
  g <- createGain ; write (set_genGain (Some g)) ;;
  f <- createBiquadFilter ; write (set_genLPF (Some f)) ;;
  engine (on_osc (set_osc_type sine) o) ;;
  hz <- read currentHz ;
  v <- to_float hz ;
  engine (on_osc (on_frequency (assign_value v)) o) ;;
  engine (on_filter (fun n => mkBiquad lowpass (filter_frequency n) (filter_Q n)) f) ;;
  engine (on_filter (fun n =>
            mkBiquad (filter_type n) (assign_value 120 (filter_frequency n)) (filter_Q n)) f) ;;
  engine (on_filter (fun n =>
            mkBiquad (filter_type n) (filter_frequency n) (assign_value 0.707 (filter_Q n))) f) ;;
  now <- ctx_currentTime ;
  engine (on_gain (setValueAtTime 0 now) g) ;;
  engine (connect (OscOut o) (FilterIO f)) ;;
  engine (connect (FilterIO f) (GainIO g)) ;;
  engine (connect (GainIO g) Destination) ;;
  engine (on_osc osc_start o) ;;
  now' <- ctx_currentTime ;
  engine (on_gain (linearRampToValueAtTime 0.25 (now' + 0.08)) g) ;;
  write (set_genRunning true) ;;
  write (set_active_audio true).

(** What [playTestTone] does once it has stopped the generator. *)
Definition beginTestTone : JS unit :=
  ensureContext ;;
  o <- createOscillator ; write (set_testOsc (Some o)) ;;
  g <- createGain ; write (set_testGain (Some g)) ;;
  engine (on_osc (set_osc_type sine) o) ;;
  engine (on_osc (on_frequency (assign_value 3030)) o) ;;
  now <- ctx_currentTime ;
  engine (on_gain (setValueAtTime 0 now) g) ;;
  engine (connect (OscOut o) (GainIO g)) ;;
  engine (connect (GainIO g) Destination) ;;
  engine (on_osc osc_start o) ;;
  t1 <- ctx_currentTime ;
  engine (on_gain (linearRampToValueAtTime 0.20 (t1 + 0.08)) g) ;;
  t2 <- ctx_currentTime ;
  engine (on_gain (setValueAtTime 0.20 (t2 + 8.8)) g) ;;
  t3 <- ctx_currentTime ;
  engine (on_gain (linearRampToValueAtTime 0 (t3 + 9)) g) ;;
  t4 <- ctx_currentTime ;
  engine (on_osc (osc_stop (t4 + 9)) o) ;;
  write (set_testRunning true) ;;
  write (set_active_audio true) ;;
  engine (on_osc (set_onended (Some TestToneEnded)) o).

End StartTransitions.

(** An engine with no [AudioContext] constructor. *)
Definition mute_engine : AudioEngine :=
  {| has_AudioContext := false;
     gain_reading := fun _ _ => 0;
     rejects := fun _ => None |}.


(** Nothing was ever created and nothing is running. *)
Definition silent (w : World) : Prop :=
  audioContext w = None /\ Idle w /\ active_audio w = false.


(** The state a key press leaves. *)
Definition press (key : string) (w : World) : World := snd (keydown key w).

(** The request a key makes of [setHz], if it is one of the eight keys the
    handler knows. *)
Definition key_request (key : string) (hz : jsnum) : option jsnum :=
  if String.eqb key "ArrowUp" || String.eqb key "ArrowRight" then Some (js_add hz (Num 1))
  else if String.eqb key "ArrowDown" || String.eqb key "ArrowLeft" then Some (js_sub hz (Num 1))
  else if String.eqb key "PageUp" then Some (js_add hz (Num 5))
  else if String.eqb key "PageDown" then Some (js_sub hz (Num 5))
  else if String.eqb key "Home" then Some MIN_HZ
  else if String.eqb key "End" then Some MAX_HZ
  else None.

(** The books of a drag, relative to the session state [w] the gestures
    started from: [dragging] is true exactly while a listener is installed,
    without a knob element nothing has happened, and the session flags and
    the indicator are those of [w]. *)
Definition drag_books (w : World) (u : Ui) : Prop :=
  dragging u = (mouse_listening u || touch_listening u)%bool /\
  (knobEl w = None -> u = at_rest w) /\
  (knobEl (session u) = None <-> knobEl w = None) /\
  genRunning (session u) = genRunning w /\
  testRunning (session u) = testRunning w /\
  active_audio (session u) = active_audio w /\
  (frequency_setting (currentHz w) -> frequency_setting (currentHz (session u))).

(** * Properties *)

(** ** Rounding and clamping *)

Lemma Math_round_Num (v : Q) : Math_round (Num v) = Num (inject_Z (round_half_up v)).
Proof. reflexivity. Qed.

Lemma round_half_up_bounds (v : Q) :
  inject_Z (round_half_up v) - (1 # 2) <= v /\
  v < inject_Z (round_half_up v) + (1 # 2).
Proof.
  unfold round_half_up.
  pose proof (Qfloor_le (v + (1 # 2))) as Hlo.
  pose proof (Qlt_floor (v + (1 # 2))) as Hhi.
  rewrite inject_Z_plus in Hhi. change (inject_Z 1) with 1 in Hhi.
  split; lra.
Qed.

Lemma round_half_up_nearest (v : Q) : nearest_integer v (round_half_up v).
Proof.
  unfold nearest_integer.
  destruct (round_half_up_bounds v) as [Hlo Hhi].
  apply Qabs_Qle_condition. split; lra.
Qed.

Lemma round_half_up_comp (v v' : Q) : v == v' -> round_half_up v = round_half_up v'.
Proof.
  intros E. unfold round_half_up. apply Qfloor_comp. rewrite E. reflexivity.
Qed.


Lemma round_half_up_Z (n : Z) : round_half_up (inject_Z n) = n.
Proof.
  unfold round_half_up.
  pose proof (Qfloor_le (inject_Z n + (1 # 2))) as Hlo.
  pose proof (Qlt_floor (inject_Z n + (1 # 2))) as Hhi.
  set (r := Qfloor (inject_Z n + (1 # 2))) in *.
  assert (inject_Z r < inject_Z (n + 1)) as H1.
  { rewrite inject_Z_plus. change (inject_Z 1) with 1. lra. }
  assert (inject_Z n < inject_Z (r + 1)) as H2 by lra.
  rewrite <- Zlt_Qlt in H1, H2. lia.
Qed.

Lemma clamp_Math (r : Z) :
  Math_max MIN_HZ (Math_min MAX_HZ (Num (inject_Z r)))
  = Num (inject_Z (clamp r 20 120)).
Proof.
  unfold MIN_HZ, MAX_HZ, Math_min, Math_max, clamp.
  destruct (Qle_bool 120 (inject_Z r)) eqn:Hhi.
  - apply Qle_bool_iff in Hhi. change 120 with (inject_Z 120) in Hhi.
    rewrite <- Zle_Qle in Hhi.
    rewrite Z.min_l, Z.max_r by lia. reflexivity.
  - assert (~ (120 <= r)%Z) as Hlt.
    { intros H. rewrite Zle_Qle in H. apply Qle_bool_iff in H.
      change (inject_Z 120) with 120 in H. congruence. }
    rewrite Z.min_r by lia.
    destruct (Qle_bool 20 (inject_Z r)) eqn:Hlo.
    + apply Qle_bool_iff in Hlo. change 20 with (inject_Z 20) in Hlo.
      rewrite <- Zle_Qle in Hlo. rewrite Z.max_r by lia. reflexivity.
    + assert (~ (20 <= r)%Z) as Hlt'.
      { intros H. rewrite Zle_Qle in H. apply Qle_bool_iff in H.
        change (inject_Z 20) with 20 in H. congruence. }
      rewrite Z.max_l by lia. reflexivity.
Qed.

(** ** The knob mapping *)





(** From here on the number operations are not unfolded by simplification. *)
#[local] Arguments Math_max : simpl never.
#[local] Arguments Math_min : simpl never.
#[local] Arguments Math_round : simpl never.
#[local] Arguments hzToAngle : simpl never.
#[local] Arguments angleToHz : simpl never.
#[local] Arguments Qplus : simpl never.
#[local] Arguments Qle_bool : simpl never.

(** ** [setHz] *)

Lemma setHz_stores (hz : jsnum) (w : World) :
  currentHz (snd (setHz hz w)) = stored_for hz.
Proof.
  destruct w as [ctx go gg gl gr to tg tr hz0 ro kn ind act].
  unfold setHz, stored_for. generalize (Math_max MIN_HZ (Math_min MAX_HZ (Math_round hz))).
  intros s. unfold bind, write, read. cbn.
  destruct gr, ctx, go; cbn; try reflexivity.
  destruct s; reflexivity.
Qed.

Lemma stored_for_Num (v : Q) :
  stored_for (Num v) = Num (inject_Z (clamp (round_half_up v) 20 120)).
Proof. unfold stored_for. rewrite Math_round_Num. apply clamp_Math. Qed.

(** [setHz] throws only when the value it stored is not finite, which takes a
    NaN request. *)
Lemma setHz_completes (hz : jsnum) (w : World) :
  is_finite (stored_for hz) = true -> fst (setHz hz w) = Normal tt.
Proof.
  destruct w as [ctx go gg gl gr to tg tr hz0 ro kn ind act].
  unfold setHz, stored_for. generalize (Math_max MIN_HZ (Math_min MAX_HZ (Math_round hz))).
  intros s Hfin. unfold bind, write, read. cbn.
  destruct gr, ctx, go; cbn; try reflexivity.
  destruct s; try discriminate. reflexivity.
Qed.

(** The session variables that [setHz] leaves alone. *)
Lemma setHz_session (hz : jsnum) (w : World) :
  let w' := snd (setHz hz w) in
  genRunning w' = genRunning w /\ testRunning w' = testRunning w /\
  genOsc w' = genOsc w /\ genGain w' = genGain w /\ genLPF w' = genLPF w /\
  testOsc w' = testOsc w /\ testGain w' = testGain w /\
  active_audio w' = active_audio w.
Proof.
  destruct w as [ctx go gg gl gr to tg tr hz0 ro kn ind act].
  unfold setHz. generalize (Math_max MIN_HZ (Math_min MAX_HZ (Math_round hz))).
  intros s. unfold bind, write, read. cbn.
  destruct gr, ctx, go; cbn; auto 10.
  destruct s; cbn; auto 10.
Qed.

Lemma setHz_Num (v : Q) (w : World) :
  fst (setHz (Num v) w) = Normal tt /\
  currentHz (snd (setHz (Num v) w)) = Num (inject_Z (clamp (round_half_up v) 20 120)).
Proof.
  split.
  - apply setHz_completes. rewrite stored_for_Num. reflexivity.
  - rewrite setHz_stores. apply stored_for_Num.
Qed.

(** C4. For every finite request [v], [setHz(v)] completes without an error
    and stores [clamp(round(v), 20, 120)], where [round(v)] is an integer
    nearest to [v]; [setHz(15)] stores 20, [setHz(125)] stores 120 and
    [setHz(73.6)] stores 74. *)
Theorem setHz_stores_clamped_rounded :
  (forall (v : Q) (w : World),
      fst (setHz (Num v) w) = Normal tt /\
      nearest_integer v (round_half_up v) /\
      currentHz (snd (setHz (Num v) w))
      = Num (inject_Z (clamp (round_half_up v) 20 120))) /\
  (forall w : World,
      currentHz (snd (setHz (Num 15) w)) = Num 20 /\
      currentHz (snd (setHz (Num 125) w)) = Num 120 /\
      currentHz (snd (setHz (Num 73.6) w)) = Num 74).
Proof.
  split.
  - intros v w. destruct (setHz_Num v w) as [Hn Hs].
    repeat split; [exact Hn | apply round_half_up_nearest | exact Hs].
  - intros w. repeat split; rewrite setHz_stores; reflexivity.
Qed.

(** The error path of [setHz] is live: a NaN request while the generator
    runs is refused by the engine, after NaN has been stored. *)
Example setHz_NaN_throws :
  let w := run (host := steady_engine) [StartGenerator] page in
  fst (setHz NaN w) = Throw TypeError /\ currentHz (snd (setHz NaN w)) = NaN.
Proof. split; reflexivity. Qed.





(** ** Nodes of the context *)

Lemma alter_last {A : Type} (f : A -> A) (l : list A) (x : A) :
  alter f (length l) (l ++ [x]) = l ++ [f x].
Proof. induction l as [|y l IH]; cbn; [reflexivity | f_equal; exact IH]. Qed.

Lemma lookup_last {A : Type} (l : list A) (x : A) :
  (l ++ [x]) !! length l = Some x.
Proof. apply list_lookup_middle. reflexivity. Qed.

(** ** Notifications *)

Lemma invoke_all_cons (cb : callback) (cbs : list callback) (w : World) :
  invoke_all (cb :: cbs) w = invoke_all cbs (invoke cb w).
Proof. reflexivity. Qed.

(** No handler starts a source, changes the context or the frequency. *)
Lemma invoke_all_keeps (cbs : list callback) (w : World) :
  genRunning (invoke_all cbs w) = genRunning w /\
  audioContext (invoke_all cbs w) = audioContext w /\
  currentHz (invoke_all cbs w) = currentHz w /\
  (testRunning w = false -> testRunning (invoke_all cbs w) = false) /\
  (active_audio w = false -> active_audio (invoke_all cbs w) = false).
Proof.
  revert w. induction cbs as [|cb cbs IH]; intros w; [cbn; auto |].
  rewrite invoke_all_cons. destruct (IH (invoke cb w)) as (H1 & H2 & H3 & H4 & H5).
  rewrite H1, H2, H3. destruct cb; cbn; repeat split; auto.
Qed.

Lemma invoke_all_generator_released (cbs : list callback) (w : World) :
  (ReleaseGenerator ∈ cbs \/
   (genOsc w = None /\ genGain w = None /\ genLPF w = None)) ->
  genOsc (invoke_all cbs w) = None /\
  genGain (invoke_all cbs w) = None /\
  genLPF (invoke_all cbs w) = None.
Proof.
  revert w. induction cbs as [|cb cbs IH]; intros w H.
  - destruct H as [H | H]; [inversion H | exact H].
  - rewrite invoke_all_cons. apply IH.
    destruct H as [H | (H1 & H2 & H3)].
    + apply elem_of_cons in H as [<- | H]; [right; cbn; auto | left; exact H].
    + right. destruct cb; cbn; auto.
Qed.

Lemma invoke_all_test_tone_ended (cbs : list callback) (w : World) :
  (TestToneEnded ∈ cbs \/
   (testRunning w = false /\ testOsc w = None /\ testGain w = None /\
    active_audio w = false)) ->
  testRunning (invoke_all cbs w) = false /\
  testOsc (invoke_all cbs w) = None /\
  testGain (invoke_all cbs w) = None /\
  active_audio (invoke_all cbs w) = false.
Proof.
  revert w. induction cbs as [|cb cbs IH]; intros w H.
  - destruct H as [H | H]; [inversion H | exact H].
  - rewrite invoke_all_cons. apply IH.
    destruct H as [H | (H1 & H2 & H3 & H4)].
    + apply elem_of_cons in H as [<- | H]; [right; cbn; auto | left; exact H].
    + right. destruct cb; cbn; auto.
Qed.

Lemma invoke_set_audioContext (cb : callback) (x : option AudioContext) (w : World) :
  invoke cb (set_audioContext x w) = set_audioContext x (invoke cb w).
Proof. destruct cb; reflexivity. Qed.

Lemma invoke_all_set_audioContext (cbs : list callback) (x : option AudioContext)
    (w : World) :
  invoke_all cbs (set_audioContext x w) = set_audioContext x (invoke_all cbs w).
Proof.
  revert w. induction cbs as [|cb cbs IH]; intros w; [reflexivity |].
  rewrite !invoke_all_cons, invoke_set_audioContext. apply IH.
Qed.

Lemma invoke_all_app (cbs cbs' : list callback) (w : World) :
  invoke_all (cbs ++ cbs') w = invoke_all cbs' (invoke_all cbs w).
Proof. apply fold_left_app. Qed.

Lemma forward_nonneg (dt : Q) : 0 <= forward dt.
Proof.
  unfold forward. destruct (Qle_bool 0 dt) eqn:E; [| lra].
  apply Qle_bool_iff. exact E.
Qed.

Lemma wait_cons (dt : Q) (dts : list Q) (w : World) :
  wait (dt :: dts) w = wait dts (elapse dt w).
Proof. reflexivity. Qed.

(** Waiting runs handlers and moves the context on; it does nothing else. *)
Lemma elapse_handlers (dt : Q) (w : World) (c : AudioContext) :
  audioContext w = Some c ->
  elapse dt w
  = set_audioContext (Some (at_time (currentTime c + forward dt) c))
      (invoke_all (omap (notification (currentTime c + forward dt)) (oscs c)) w).
Proof.
  intros Hc. unfold elapse. rewrite Hc. apply invoke_all_set_audioContext.
Qed.

Lemma wait_handlers (dts : list Q) (w : World) (c : AudioContext) :
  audioContext w = Some c ->
  exists (cbs : list callback) (c' : AudioContext),
    wait dts w = set_audioContext (Some c') (invoke_all cbs w).
Proof.
  revert w c. induction dts as [|dt dts IH]; intros w c Hc.
  - exists [], c. destruct w; cbn in *; subst; reflexivity.
  - rewrite wait_cons, (elapse_handlers dt w c Hc).
    edestruct IH as (cbs & c' & ->); [reflexivity |].
    eexists (_ ++ cbs), c'.
    rewrite invoke_all_set_audioContext, invoke_all_app. reflexivity.
Qed.

(** An oscillator that is sounding is notified once the waiting reaches its
    stop time. *)
Lemma wait_notifies (o : nat) (ts : Q) (cb : callback) (dts : list Q) :
  forall (w : World) (c : AudioContext) (n : OscillatorNode),
    audioContext w = Some c ->
    oscs c !! o = Some n ->
    started n = true -> ended n = false ->
    stopAt n = Some ts -> onended n = Some cb ->
    currentTime c < ts -> ts <= currentTime c + total dts ->
    exists (cbs : list callback) (c' : AudioContext),
      wait dts w = set_audioContext (Some c') (invoke_all cbs w) /\ cb ∈ cbs.
Proof.
  induction dts as [|dt dts IH]; intros w c n Hc Ho Hs He Hst Hcb Hnow Hts.
  - cbn in Hts. lra.
  - rewrite wait_cons, (elapse_handlers dt w c Hc).
    set (t := currentTime c + forward dt).
    set (w1 := set_audioContext _ _).
    cbn [total fold_right] in Hts. fold (total dts) in Hts.
    destruct (Qle_bool ts t) eqn:Hdue.
    + destruct (wait_handlers dts w1 (at_time t c) eq_refl) as (cbs & c' & ->).
      exists (omap (notification t) (oscs c) ++ cbs), c'. split.
      * subst w1. rewrite invoke_all_set_audioContext, invoke_all_app.
        reflexivity.
      * apply elem_of_app. left. apply list_elem_of_omap. exists n. split.
        -- eapply list_elem_of_lookup_2; eassumption.
        -- unfold notification, due. rewrite Hs, He, Hst, Hdue. exact Hcb.
    + assert (~ ts <= t) as Hlt.
      { intros H. apply Qle_bool_iff in H. congruence. }
      assert (finish t n = n) as Hfin.
      { unfold finish, due. rewrite Hst, Hdue, andb_false_r. reflexivity. }
      destruct (IH w1 (at_time t c) n) as (cbs & c' & -> & Hin); try assumption.
      * reflexivity.
      * unfold at_time. cbn. rewrite list_lookup_fmap, Ho. cbn.
        rewrite Hfin. reflexivity.
      * change (currentTime (at_time t c)) with t. lra.
      * change (currentTime (at_time t c)) with t. subst t. lra.
      * exists (omap (notification t) (oscs c) ++ cbs), c'. split.
        -- subst w1. rewrite invoke_all_set_audioContext, invoke_all_app.
           reflexivity.
        -- apply elem_of_app. right. exact Hin.
Qed.

(** Runs a computation of the script on a state given by its fields, leaving
    list operations and arithmetic as they are. *)
Ltac js_eval :=
  cbv [bind read write ret throw to_float createOscillator createGain
       createBiquadFilter engine ctx_currentTime on_osc on_gain on_filter
       connect with_oscs with_gains with_filters with_wires with_time
       set_audioContext set_genOsc set_genGain set_genLPF set_genRunning
       set_testOsc set_testGain set_testRunning set_currentHz set_readoutEl
       set_knobEl set_indicatorEl set_active_audio
       audioContext genOsc genGain genLPF genRunning testOsc testGain
       testRunning currentHz readoutEl knobEl indicatorEl active_audio
       currentTime oscs gains filters wires fst snd].

Section Session.

Context {host : AudioEngine}.

(** ** The soft stop *)

Lemma softStopNode_scheduled (o g : nat) (cb : callback) (w : World)
    (c : AudioContext) :
  audioContext w = Some c -> rejects o = None ->
  softStopNode o g cb w
  = (Normal tt, set_audioContext (Some (soft_stopped o g cb c)) w).
Proof.
  intros Hc Hr. destruct w as [ctx go gg gl gr to tg tr hz0 ro kn ind act].
  cbn in Hc. subst ctx.
  unfold softStopNode, try_catch, scheduling, gain_gain_value, bind,
    ctx_currentTime, engine, ret.
  rewrite Hr. reflexivity.
Qed.

(** When a scheduling call is rejected the handler of the [catch] runs
    [onDone] on the spot; only the context differs from the state before. *)
Lemma softStopNode_rejected (o g : nat) (cb : callback) (w : World)
    (c : AudioContext) (k : sched_step) :
  audioContext w = Some c -> rejects o = Some k ->
  exists c' : AudioContext,
    softStopNode o g cb w = (Normal tt, invoke cb (set_audioContext (Some c') w)).
Proof.
  intros Hc Hr. destruct w as [ctx go gg gl gr to tg tr hz0 ro kn ind act].
  cbn in Hc. subst ctx.
  unfold softStopNode, try_catch, scheduling, gain_gain_value, bind,
    ctx_currentTime, engine, ret, throw, write.
  rewrite Hr. destruct k; cbn; eexists; reflexivity.
Qed.

(** Whatever the engine does, [softStopNode] completes normally, keeps a
    context and either schedules or releases. *)
Lemma softStopNode_cases (o g : nat) (cb : callback) (w : World)
    (c : AudioContext) :
  audioContext w = Some c ->
  exists c' : AudioContext,
    softStopNode o g cb w = (Normal tt, set_audioContext (Some c') w) \/
    softStopNode o g cb w = (Normal tt, invoke cb (set_audioContext (Some c') w)).
Proof.
  intros Hc. destruct (rejects o) as [k|] eqn:Hr.
  - destruct (softStopNode_rejected o g cb w c k Hc Hr) as [c' H].
    exists c'. right. exact H.
  - exists (soft_stopped o g cb c). left.
    apply softStopNode_scheduled; assumption.
Qed.


Lemma soft_stopped_osc (o g : nat) (cb : callback) (c : AudioContext)
    (n : OscillatorNode) :
  oscs c !! o = Some n ->
  oscs (soft_stopped o g cb c) !! o
  = Some (set_onended (Some cb) (osc_stop (currentTime c + 0.07) n)).
Proof.
  intros Ho. unfold soft_stopped, on_osc, on_gain. cbn.
  rewrite !list_lookup_alter_eq, Ho. reflexivity.
Qed.

(** ** Stopping the generator *)

Lemma stopGenerator_scheduled (w : World) (c : AudioContext) (o g : nat) :
  audioContext w = Some c -> genRunning w = true ->
  genOsc w = Some o -> genGain w = Some g -> rejects o = None ->
  stopGenerator w
  = (Normal tt,
     set_active_audio false
       (set_audioContext (Some (soft_stopped o g ReleaseGenerator c))
          (set_genRunning false w))).
Proof.
  intros Hc Hr Ho Hg Hrej.
  destruct w as [ctx go gg gl gr to tg tr hz0 ro kn ind act].
  cbn in Hc, Hr, Ho, Hg. subst.
  unfold stopGenerator, bind, read, write. cbn.
  erewrite softStopNode_scheduled by (reflexivity || eassumption).
  reflexivity.
Qed.




(** ** A soft stop that the engine rejects *)





(** ** The panic stop when nothing is running *)

Lemma stopAllAudio_idle (w : World) :
  Idle w ->
  stopAllAudio w
  = (Normal tt,
     match audioContext w with
     | Some _ => set_active_audio false w
     | None => w
     end).
Proof.
  intros [Hg Ht].
  destruct w as [ctx go gg gl gr to tg tr hz0 ro kn ind act].
  cbn in Hg, Ht. subst.
  unfold stopAllAudio, bind, read, write, ret. cbn.
  destruct ctx; reflexivity.
Qed.

(** C8. The panic stop in the state [Idle] completes without an error and
    leaves the session variables (context, running flags, node references,
    stored Hz) as they are; before any context was created it changes
    nothing at all; a second panic stop gives the state of the first. *)
Theorem panic_when_idle_is_noop (w : World) :
  Idle w ->
  fst (stopAllAudio w) = Normal tt /\
  same_session w (snd (stopAllAudio w)) /\
  Idle (snd (stopAllAudio w)) /\
  (audioContext w = None -> snd (stopAllAudio w) = w) /\
  stopAllAudio (snd (stopAllAudio w)) = stopAllAudio w.
Proof.
  intros Hidle. pose proof Hidle as [Hg Ht].
  rewrite (stopAllAudio_idle w Hidle). cbn [fst snd].
  assert (Idle (match audioContext w with
                | Some _ => set_active_audio false w
                | None => w
                end)) as Hidle'.
  { destruct w as [[?|] ? ? ? ? ? ? ? ? ? ? ? ?]; exact Hidle. }
  split; [reflexivity |]. split.
  { unfold same_session. destruct w as [[?|] ? ? ? ? ? ? ? ? ? ? ? ?]; cbn; auto 10. }
  split; [exact Hidle' |]. split.
  { intros ->. reflexivity. }
  rewrite (stopAllAudio_idle _ Hidle').
  destruct w as [[?|] ? ? ? ? ? ? ? ? ? ? ? ?]; reflexivity.
Qed.

(** ** Starting a source from [Idle] *)

Lemma ensureContext_available (w : World) :
  context_available w ->
  ensureContext w = (Normal tt, set_audioContext (Some (context_of w)) w).
Proof.
  intros Hav. destruct w as [ctx go gg gl gr to tg tr hz0 ro kn ind act].
  unfold ensureContext, context_of, bind, read, write, ret. cbn.
  destruct ctx as [c|]; [reflexivity |].
  destruct Hav as [Hne | Hhas]; [cbn in Hne; congruence |].
  rewrite Hhas. reflexivity.
Qed.

Lemma bind_normal {A B : Type} (m : JS A) (k : A -> JS B) (w w' : World) (a : A) :
  m w = (Normal a, w') -> bind m k w = k a w'.
Proof. intros H. unfold bind. rewrite H. reflexivity. Qed.

Lemma playTestTone_from_idle (w : World) :
  Idle w -> context_available w ->
  playTestTone w
  = (Normal tt,
     mkWorld (Some (test_tone_started (context_of w)))
             (genOsc w) (genGain w) (genLPF w) false
             (Some (length (oscs (context_of w))))
             (Some (length (gains (context_of w)))) true
             (currentHz w) (readoutEl w) (knobEl w) (indicatorEl w) true).
Proof.
  intros [Hg Ht] Hav.
  destruct w as [ctx go gg gl gr to tg tr hz0 ro kn ind act].
  cbn in Hg, Ht. subst gr tr.
  unfold playTestTone, bind at 1 2 3, read, ret. cbv [testRunning genRunning].
  rewrite (bind_normal _ _ _ _ _ (ensureContext_available _ Hav)).
  unfold context_of, test_tone_started. cbn [audioContext].
  destruct (default new_context ctx) as [t os gs fs ws].
  js_eval. rewrite !alter_last, <- !app_assoc. reflexivity.
Qed.

Lemma startGenerator_from_idle (w : World) (q : Q) :
  Idle w -> context_available w -> currentHz w = Num q ->
  startGenerator w
  = (Normal tt,
     mkWorld (Some (generator_started q (context_of w)))
             (Some (length (oscs (context_of w))))
             (Some (length (gains (context_of w))))
             (Some (length (filters (context_of w)))) true
             (testOsc w) (testGain w) false
             (Num q) (readoutEl w) (knobEl w) (indicatorEl w) true).
Proof.
  intros [Hg Ht] Hav Hhz.
  destruct w as [ctx go gg gl gr to tg tr hz0 ro kn ind act].
  cbn in Hg, Ht, Hhz. subst gr tr hz0.
  unfold startGenerator, bind at 1 2 3, read, ret. cbv [testRunning genRunning].
  rewrite (bind_normal _ _ _ _ _ (ensureContext_available _ Hav)).
  unfold context_of, generator_started. cbn [audioContext].
  destruct (default new_context ctx) as [t os gs fs ws].
  js_eval. rewrite !alter_last, <- !app_assoc. reflexivity.
Qed.

(** C6. Played from [Idle], the test tone is a sine oscillator fixed at
    3030 Hz wired through a gain to the output; the gain starts at 0, is
    ramped to 0.20 over 80 ms, held until 8.8 s and ramped back to 0 by
    9.0 s, where the oscillator is scheduled to stop; once 9 s have passed,
    in however many steps and with no call, the references are released,
    the indicator is cleared and the session is [Idle] again. *)
Theorem test_tone_plays_and_releases (w : World) :
  Idle w -> context_available w ->
  let c0 := context_of w in
  let now := currentTime c0 in
  let w1 := snd (playTestTone w) in
  fst (playTestTone w) = Normal tt /\
  (exists (c1 : AudioContext) (o g : nat),
      audioContext w1 = Some c1 /\ testOsc w1 = Some o /\ testGain w1 = Some g /\
      oscs c1 !! o = Some (test_tone_osc now) /\
      gains c1 !! g = Some (mkGain (test_tone_envelope now)) /\
      wires c1 = wires c0 ++ [(OscOut o, GainIO g); (GainIO g, Destination)]) /\
  testRunning w1 = true /\ genRunning w1 = false /\ active_audio w1 = true /\
  (forall dts : list Q, 9 <= total dts ->
      let w2 := wait dts w1 in
      Idle w2 /\ testOsc w2 = None /\ testGain w2 = None /\
      active_audio w2 = false).
Proof.
  intros Hidle Hav c0 now w1. subst w1.
  rewrite (playTestTone_from_idle w Hidle Hav). cbn [fst snd].
  fold c0. split; [reflexivity |]. split.
  { exists (test_tone_started c0), (length (oscs c0)), (length (gains c0)).
    repeat split; try reflexivity; apply lookup_last. }
  split; [reflexivity |]. split; [reflexivity |]. split; [reflexivity |].
  intros dts Hdts.
  set (w1 := mkWorld _ _ _ _ _ _ _ _ _ _ _ _ _).
  destruct (wait_notifies (length (oscs c0)) (now + 9) TestToneEnded dts w1
              (test_tone_started c0) (test_tone_osc now))
    as (cbs & c' & -> & Hin); try reflexivity.
  - apply lookup_last.
  - change (currentTime (test_tone_started c0)) with now. lra.
  - change (currentTime (test_tone_started c0)) with now. lra.
  - destruct (invoke_all_test_tone_ended cbs w1 (or_introl Hin))
      as (H1 & H2 & H3 & H4).
    destruct (invoke_all_keeps cbs w1) as (K1 & _).
    split; [split |]; [| exact H1 | split; [exact H2 | split; [exact H3 | exact H4]]].
    change (genRunning (invoke_all cbs w1) = false). rewrite K1. reflexivity.
Qed.

(** ** Retargeting the running generator *)


Lemma setHz_without_generator (hz : jsnum) (w : World) :
  genRunning w = false -> audioContext (snd (setHz hz w)) = audioContext w.
Proof.
  intros Hr.
  destruct w as [ctx go gg gl gr to tg tr hz0 ro kn ind act].
  cbn in Hr. subst. unfold setHz. js_eval. reflexivity.
Qed.


End Session.

(** ** Mutual exclusion between notifications *)

Section Exclusion.

Context {host : AudioEngine}.

Ltac soft_stop_cases :=
  match goal with
  | |- context [softStopNode ?o ?g ?cb ?w] =>
      let c' := fresh "c" in
      let H := fresh "H" in
      destruct (softStopNode_cases o g cb w _ eq_refl) as [c' [H | H]];
      rewrite H; clear H
  end.

(** The panic stop of a state whose running sources are held stops both. *)
Lemma stopAllAudio_held (w : World) :
  held w ->
  fst (stopAllAudio w) = Normal tt /\
  Idle (snd (stopAllAudio w)) /\
  (audioContext w <> None -> audioContext (snd (stopAllAudio w)) <> None) /\
  currentHz (snd (stopAllAudio w)) = currentHz w.
Proof.
  intros [Hgen Htest].
  destruct w as [ctx go gg gl gr to tg tr hz0 ro kn ind act].
  cbn in Hgen, Htest. unfold stopAllAudio, Idle.
  destruct ctx as [c|].
  2: { destruct gr; [destruct (Hgen eq_refl) as [H _]; congruence |].
       destruct tr; [destruct (Htest eq_refl) as [H _]; congruence |].
       js_eval. repeat split; auto. }
  destruct gr.
  - destruct (Hgen eq_refl) as (_ & Ho & Hg).
    destruct go as [o|]; [| congruence]. destruct gg as [g|]; [| congruence].
    js_eval. soft_stop_cases; js_eval.
    + destruct tr.
      * destruct (Htest eq_refl) as (_ & Ho' & Hg').
        destruct to as [o'|]; [| congruence]. destruct tg as [g'|]; [| congruence].
        soft_stop_cases; cbv [invoke]; js_eval; repeat split; auto; discriminate.
      * js_eval. repeat split; auto; discriminate.
    + cbv [invoke]. js_eval. destruct tr.
      * destruct (Htest eq_refl) as (_ & Ho' & Hg').
        destruct to as [o'|]; [| congruence]. destruct tg as [g'|]; [| congruence].
        soft_stop_cases; cbv [invoke]; js_eval; repeat split; auto; discriminate.
      * js_eval. repeat split; auto; discriminate.
  - js_eval. destruct tr.
    + destruct (Htest eq_refl) as (_ & Ho' & Hg').
      destruct to as [o'|]; [| congruence]. destruct tg as [g'|]; [| congruence].
      soft_stop_cases; cbv [invoke]; js_eval; repeat split; auto; discriminate.
    + js_eval. repeat split; auto; discriminate.
Qed.
Lemma stopGenerator_held (w : World) :
  held w ->
  let w' := snd (stopGenerator w) in
  fst (stopGenerator w) = Normal tt /\
  genRunning w' = false /\ testRunning w' = testRunning w /\
  testOsc w' = testOsc w /\ testGain w' = testGain w /\
  (audioContext w <> None -> audioContext w' <> None) /\
  currentHz w' = currentHz w.
Proof.
  intros [Hgen _].
  destruct w as [ctx go gg gl gr to tg tr hz0 ro kn ind act].
  cbn in Hgen. unfold stopGenerator.
  destruct gr; [| js_eval; repeat split; auto].
  destruct (Hgen eq_refl) as (Hc & Ho & Hg).
  destruct ctx as [c|]; [| congruence].
  destruct go as [o|]; [| congruence]. destruct gg as [g|]; [| congruence].
  js_eval. soft_stop_cases; cbv [invoke]; js_eval; repeat split; auto; discriminate.
Qed.

(** The start of the generator proper, from a state with no source running:
    the test tone stays off, and if the generator runs afterwards it is
    held. *)
Lemma startGenerator_idle_held (w : World) :
  Idle w ->
  let w' := snd (startGenerator w) in
  testRunning w' = false /\
  (genRunning w' = true ->
   audioContext w' <> None /\ genOsc w' <> None /\ genGain w' <> None) /\
  testOsc w' = testOsc w /\ testGain w' = testGain w.
Proof.
  intros [Hg Ht].
  destruct w as [ctx go gg gl gr to tg tr hz0 ro kn ind act].
  cbn in Hg, Ht. subst gr tr.
  unfold startGenerator, ensureContext.
  destruct ctx as [c|].
  - destruct hz0; js_eval; repeat split; intros; congruence.
  - destruct has_AudioContext.
    + destruct hz0; js_eval; repeat split; intros; congruence.
    + js_eval. repeat split; intros; congruence.
Qed.

Lemma playTestTone_idle_held (w : World) :
  Idle w ->
  let w' := snd (playTestTone w) in
  genRunning w' = false /\
  (testRunning w' = true ->
   audioContext w' <> None /\ testOsc w' <> None /\ testGain w' <> None) /\
  genOsc w' = genOsc w /\ genGain w' = genGain w.
Proof.
  intros [Hg Ht].
  destruct w as [ctx go gg gl gr to tg tr hz0 ro kn ind act].
  cbn in Hg, Ht. subst gr tr.
  unfold playTestTone, ensureContext.
  destruct ctx as [c|].
  - js_eval; repeat split; intros; congruence.
  - destruct has_AudioContext; js_eval; repeat split; intros; congruence.
Qed.

(** Starting a source while the other one runs is the stop of the other one
    followed by the start from the state the stop left. *)
Lemma startGenerator_after_stop (w ws : World) :
  genRunning w = false -> testRunning w = true ->
  stopAllAudio w = (Normal tt, ws) -> Idle ws ->
  startGenerator w = startGenerator ws.
Proof.
  intros Hg Ht Hstop [Hg' Ht'].
  unfold startGenerator at 1. unfold bind at 1 2 3, read. cbv beta.
  rewrite Hg, Ht. cbv iota beta. rewrite Hstop.
  destruct ws as [ctx go gg gl gr to tg tr hz0 ro kn ind act].
  cbn in Hg', Ht'. subst gr tr. reflexivity.
Qed.

Lemma playTestTone_after_stop (w ws : World) :
  testRunning w = false -> genRunning w = true ->
  stopGenerator w = (Normal tt, ws) -> Idle ws ->
  playTestTone w = playTestTone ws.
Proof.
  intros Ht Hg Hstop [Hg' Ht'].
  unfold playTestTone at 1. unfold bind at 1 2 3, read. cbv beta.
  rewrite Ht, Hg. cbv iota beta. rewrite Hstop.
  destruct ws as [ctx go gg gl gr to tg tr hz0 ro kn ind act].
  cbn in Hg', Ht'. subst gr tr. reflexivity.
Qed.

Lemma startGenerator_running (w : World) :
  genRunning w = true -> startGenerator w = (Normal tt, w).
Proof.
  intros H. unfold startGenerator, bind at 1, read. cbv beta.
  rewrite H. reflexivity.
Qed.

Lemma playTestTone_running (w : World) :
  testRunning w = true -> playTestTone w = (Normal tt, w).
Proof.
  intros H. unfold playTestTone, bind at 1, read. cbv beta.
  rewrite H. reflexivity.
Qed.

Lemma setHz_keeps_context (hz : jsnum) (w : World) :
  audioContext w <> None -> audioContext (snd (setHz hz w)) <> None.
Proof.
  destruct w as [ctx go gg gl gr to tg tr hz0 ro kn ind act].
  unfold setHz. generalize (Math_max MIN_HZ (Math_min MAX_HZ (Math_round hz))).
  intros s. destruct gr, ctx as [c|], go as [o|], s; js_eval; congruence.
Qed.

(** Every call keeps the running sources held and exclusive. *)
Lemma call_keeps_exclusive (a : action) (w : World) :
  is_call a = true -> held w -> exclusive w ->
  held (perform a w) /\ exclusive (perform a w).
Proof.
  intros Hcall Hheld Hex. destruct a as [ | | | | v | dt]; cbn [perform];
    try discriminate.
  - (* startGenerator *)
    destruct (genRunning w) eqn:Hg.
    { rewrite (startGenerator_running w Hg). split; assumption. }
    assert (exists ws, startGenerator w = startGenerator ws /\ Idle ws)
      as (ws & -> & Hidle).
    { destruct (testRunning w) eqn:Ht.
      - destruct (stopAllAudio_held w Hheld) as (Hn & Hidle & _).
        exists (snd (stopAllAudio w)). split; [| exact Hidle].
        apply startGenerator_after_stop; try assumption.
        rewrite <- Hn. apply surjective_pairing.
      - exists w. split; [reflexivity | split; assumption]. }
    destruct (startGenerator_idle_held ws Hidle) as (Ht' & Hheld' & _).
    split; [split | right; exact Ht']; [exact Hheld' | congruence].
  - (* stopGenerator *)
    destruct (stopGenerator_held w Hheld) as (_ & Hg & Ht & Hto & Htg & Hc & _).
    split; [split | left; exact Hg]; [congruence |].
    rewrite Ht, Hto, Htg. intros Hrun.
    destruct Hheld as [_ Htest]. destruct (Htest Hrun) as (H1 & H2 & H3). auto.
  - (* playTestTone *)
    destruct (testRunning w) eqn:Ht.
    { rewrite (playTestTone_running w Ht). split; assumption. }
    assert (exists ws, playTestTone w = playTestTone ws /\ Idle ws)
      as (ws & -> & Hidle).
    { destruct (genRunning w) eqn:Hg.
      - destruct (stopGenerator_held w Hheld) as (Hn & Hg' & Ht' & _).
        exists (snd (stopGenerator w)). split; [| split; congruence].
        apply playTestTone_after_stop; try assumption.
        + rewrite <- Hn. apply surjective_pairing.
        + split; congruence.
      - exists w. split; [reflexivity | split; assumption]. }
    destruct (playTestTone_idle_held ws Hidle) as (Hg' & Hheld' & _).
    split; [split | left; exact Hg']; [congruence | exact Hheld'].
  - (* stopAllAudio *)
    destruct (stopAllAudio_held w Hheld) as (_ & [Hg Ht] & _).
    split; [split | left; exact Hg]; congruence.
  - (* setHz *)
    destruct (setHz_session v w) as (Hg & Ht & Hgo & Hgg & _ & Hto & Htg & _).
    pose proof (setHz_keeps_context v w) as Hc.
    destruct Hheld as [Hgen Htest]. unfold held, exclusive.
    rewrite Hg, Ht, Hgo, Hgg, Hto, Htg.
    split; [split | exact Hex]; intros Hrun.
    + destruct (Hgen Hrun) as (H1 & H2 & H3). auto.
    + destruct (Htest Hrun) as (H1 & H2 & H3). auto.
Qed.

(** Mutual exclusion holds along every sequence of calls between which no
    [onended] notification is delivered. *)
Lemma calls_keep_exclusive (l : list action) (w : World) :
  forallb is_call l = true -> held w -> exclusive w ->
  held (run l w) /\ exclusive (run l w).
Proof.
  revert w. induction l as [|a l IH]; intros w Hl Hheld Hex; [split; assumption |].
  cbn in Hl. apply andb_prop in Hl as [Ha Hl].
  destruct (call_keeps_exclusive a w Ha Hheld Hex) as [Hheld' Hex'].
  exact (IH (perform a w) Hl Hheld' Hex').
Qed.

(** From the loaded page, whatever the engine does. *)
Lemma loaded_page_exclusive (readout knob indicator : option jsnum)
    (l : list action) :
  forallb is_call l = true ->
  exclusive (run l (loaded readout knob indicator)).
Proof.
  intros Hl.
  assert (Idle (loaded readout knob indicator)) as [Hg Ht].
  { split; reflexivity. }
  apply calls_keep_exclusive; [exact Hl | | left; exact Hg].
  split; intros H; congruence.
Qed.

(** ** The stop request comes before the start, when the reference is held *)

(** While the test tone runs and is held, [startGenerator] first leaves the
    state of the panic stop, in which the test oscillator has been told to
    stop at [now + 0.07] and no node has been created yet, and then runs
    from that state. *)
Lemma startGenerator_stops_test_tone_first (w : World) (c : AudioContext)
    (o g : nat) (n : OscillatorNode) :
  genRunning w = false -> testRunning w = true ->
  audioContext w = Some c -> testOsc w = Some o -> testGain w = Some g ->
  oscs c !! o = Some n -> rejects o = None ->
  exists (ws : World) (cs : AudioContext),
    stopAllAudio w = (Normal tt, ws) /\
    startGenerator w = startGenerator ws /\
    Idle ws /\ audioContext ws = Some cs /\
    oscs cs !! o
    = Some (set_onended (Some ReleaseTestTone) (osc_stop (currentTime c + 0.07) n)) /\
    length (oscs cs) = length (oscs c) /\
    length (gains cs) = length (gains c) /\
    length (filters cs) = length (filters c).
Proof.
  intros Hg Ht Hc Ho Hgn Hn Hrej.
  assert (stopAllAudio w
          = (Normal tt,
             set_active_audio false
               (set_audioContext (Some (soft_stopped o g ReleaseTestTone c))
                  (set_testRunning false w)))) as Hstop.
  { destruct w as [ctx go gg gl gr to tg tr hz0 ro kn ind act].
    cbn in Hg, Ht, Hc, Ho, Hgn. subst.
    unfold stopAllAudio. js_eval.
    erewrite softStopNode_scheduled by (reflexivity || eassumption).
    reflexivity. }
  eexists _, (soft_stopped o g ReleaseTestTone c).
  split; [exact Hstop |].
  assert (Idle (set_active_audio false
                  (set_audioContext (Some (soft_stopped o g ReleaseTestTone c))
                     (set_testRunning false w)))) as Hidle.
  { split; [exact Hg | reflexivity]. }
  split; [apply startGenerator_after_stop; assumption |].
  split; [exact Hidle |]. split; [reflexivity |].
  split; [apply soft_stopped_osc; exact Hn |].
  unfold soft_stopped, on_osc, on_gain. cbn.
  rewrite !length_alter. auto.
Qed.

Lemma playTestTone_stops_generator_first (w : World) (c : AudioContext)
    (o g : nat) (n : OscillatorNode) :
  testRunning w = false -> genRunning w = true ->
  audioContext w = Some c -> genOsc w = Some o -> genGain w = Some g ->
  oscs c !! o = Some n -> rejects o = None ->
  exists (ws : World) (cs : AudioContext),
    stopGenerator w = (Normal tt, ws) /\
    playTestTone w = playTestTone ws /\
    Idle ws /\ audioContext ws = Some cs /\
    oscs cs !! o
    = Some (set_onended (Some ReleaseGenerator) (osc_stop (currentTime c + 0.07) n)) /\
    length (oscs cs) = length (oscs c) /\
    length (gains cs) = length (gains c) /\
    length (filters cs) = length (filters c).
Proof.
  intros Ht Hg Hc Ho Hgn Hn Hrej.
  pose proof (stopGenerator_scheduled w c o g Hc Hg Ho Hgn Hrej) as Hstop.
  eexists _, (soft_stopped o g ReleaseGenerator c).
  split; [exact Hstop |].
  assert (Idle (set_active_audio false
                  (set_audioContext (Some (soft_stopped o g ReleaseGenerator c))
                     (set_genRunning false w)))) as Hidle.
  { split; [reflexivity | exact Ht]. }
  split; [apply playTestTone_after_stop; assumption |].
  split; [exact Hidle |]. split; [reflexivity |].
  split; [apply soft_stopped_osc; exact Hn |].
  unfold soft_stopped, on_osc, on_gain. cbn.
  rewrite !length_alter. auto.
Qed.

End Exclusion.

(** ** Concrete runs *)

Lemma generator_playing_active :
  GeneratorActive generator_playing playing_context 0 0 playing_osc playing_gain.
Proof. constructor; reflexivity. Qed.



Lemma panic_when_idle_is_noop_witness :
  fst (stopAllAudio (host := steady_engine) page) = Normal tt /\
  same_session page (snd (stopAllAudio (host := steady_engine) page)) /\
  Idle (snd (stopAllAudio (host := steady_engine) page)) /\
  (audioContext page = None ->
   snd (stopAllAudio (host := steady_engine) page) = page) /\
  stopAllAudio (host := steady_engine) (snd (stopAllAudio (host := steady_engine) page))
  = stopAllAudio (host := steady_engine) page.
Proof.
  apply (panic_when_idle_is_noop (host := steady_engine) page).
  split; reflexivity.
Defined.

Lemma test_tone_plays_and_releases_witness :
  let w1 := snd (playTestTone (host := steady_engine) page) in
  testRunning w1 = true /\ genRunning w1 = false /\ active_audio w1 = true /\
  (forall dts : list Q, 9 <= total dts ->
      let w2 := wait dts w1 in
      Idle w2 /\ testOsc w2 = None /\ testGain w2 = None /\
      active_audio w2 = false).
Proof.
  assert (Idle page) as Hidle by (split; reflexivity).
  assert (context_available (host := steady_engine) page) as Hav
    by (right; reflexivity).
  destruct (test_tone_plays_and_releases (host := steady_engine) page Hidle Hav)
    as (_ & _ & H).
  exact H.
Defined.


(** ** The release callback of a stopped source that was started again *)

(** What the run [stale_test_release] leaves: the second test tone is
    running and sounding (oscillator 1, to stop at 9 s), but the release
    callback of the first oscillator has cleared [testOsc] and [testGain]. *)
Lemma stale_test_release_state :
  let w := run (host := steady_engine) stale_test_release page in
  testRunning w = true /\ genRunning w = false /\
  testOsc w = None /\ testGain w = None /\
  exists c : AudioContext,
    audioContext w = Some c /\ currentTime c = 0.07 /\
    oscs c !! 1%nat = Some (test_tone_osc 0).
Proof.
  vm_compute. repeat split. eexists. repeat split.
Qed.

(** C1. The call sequence play test tone, panic stop, play test tone and,
    70 ms later, start generator ends with [genRunning] and [testRunning]
    both true: the two sources are active together. *)
Theorem both_sources_running :
  let w := run (host := steady_engine) (stale_test_release ++ [StartGenerator]) page in
  genRunning w = true /\ testRunning w = true /\
  exists (c : AudioContext) (t g : OscillatorNode),
    audioContext w = Some c /\
    oscs c !! 1%nat = Some t /\ started t = true /\ ended t = false /\
    stopAt t = Some (0 + 9) /\
    genOsc w = Some 2%nat /\
    oscs c !! 2%nat = Some g /\ started g = true /\ ended g = false /\
    stopAt g = None.
Proof.
  vm_compute. split; [reflexivity |]. split; [reflexivity |].
  eexists _, _, _. repeat split.
Qed.

(** C7. In the state left by [stale_test_release] the test tone is running,
    yet [startGenerator] requests no stop of it: the sounding test
    oscillator is as before (still to stop at 9 s, same handler), its
    envelope is as before, and the generator nodes are allocated and
    started.  Likewise [playTestTone] after [stale_generator_release] leaves
    the sounding generator oscillator with no stop scheduled. *)
Theorem start_without_stop_request :
  (let w := run (host := steady_engine) stale_test_release page in
   let r := startGenerator (host := steady_engine) w in
   testRunning w = true /\ fst r = Normal tt /\
   genRunning (snd r) = true /\ testRunning (snd r) = true /\
   exists c c' : AudioContext,
     audioContext w = Some c /\ audioContext (snd r) = Some c' /\
     oscs c !! 1%nat = Some (test_tone_osc 0) /\
     oscs c' !! 1%nat = Some (test_tone_osc 0) /\
     gains c' !! 1%nat = gains c !! 1%nat /\
     length (oscs c') = S (length (oscs c))) /\
  (let w := run (host := steady_engine) stale_generator_release page in
   let r := playTestTone (host := steady_engine) w in
   genRunning w = true /\ fst r = Normal tt /\
   genRunning (snd r) = true /\ testRunning (snd r) = true /\
   exists c c' : AudioContext,
     audioContext w = Some c /\ audioContext (snd r) = Some c' /\
     oscs c !! 1%nat = Some playing_osc /\
     oscs c' !! 1%nat = Some playing_osc /\
     gains c' !! 1%nat = gains c !! 1%nat /\
     length (oscs c') = S (length (oscs c))).
Proof.
  split; vm_compute; repeat split; eexists _, _; repeat split.
Qed.

(** After [stale_generator_release] no stop operation reaches the generator:
    [stopGenerator] and the panic stop leave [genRunning] true and the
    sounding oscillator with no stop time. *)
Lemma generator_wedged :
  let w := run (host := steady_engine) stale_generator_release page in
  forall l : list action,
    l = [StopGenerator] \/ l = [Panic] \/ l = [StopGenerator; Panic; Elapse 60] ->
    let w' := run (host := steady_engine) l w in
    genRunning w' = true /\
    exists (c : AudioContext) (n : OscillatorNode),
      audioContext w' = Some c /\ oscs c !! 1%nat = Some n /\
      started n = true /\ ended n = false /\ stopAt n = None.
Proof.
  cbv zeta. intros l [-> | [-> | ->]]; vm_compute; split; try reflexivity;
    eexists _, _; repeat split.
Qed.

(** * Further properties of the script *)

(** ** The knob mapping on every angle *)

Lemma Math_sweep (a : Q) :
  Math_max (Num (-135)) (Math_min (Num 135) (Num a)) = Num (sweep a).
Proof.
  unfold Math_min, Math_max, sweep.
  destruct (Qle_bool 135 a); [reflexivity |].
  destruct (Qle_bool (-135) a); reflexivity.
Qed.

Lemma sweep_cases (a : Q) :
  (135 <= a /\ sweep a = 135) \/
  (-135 <= a /\ a < 135 /\ sweep a = a) \/
  (a < -135 /\ sweep a = -135).
Proof.
  unfold sweep.
  destruct (Qle_bool 135 a) eqn:E1.
  - left. apply Qle_bool_iff in E1. auto.
  - assert (a < 135) as H1.
    { apply Qnot_le_lt. intros H. apply Qle_bool_iff in H. congruence. }
    destruct (Qle_bool (-135) a) eqn:E2.
    + right. left. apply Qle_bool_iff in E2. auto.
    + right. right. split; [| reflexivity].
      apply Qnot_le_lt. intros H. apply Qle_bool_iff in H. congruence.
Qed.

Lemma sweep_bounds (a : Q) : -135 <= sweep a /\ sweep a <= 135.
Proof.
  destruct (sweep_cases a) as [[H ->] | [(H1 & H2 & ->) | [H ->]]]; lra.
Qed.


Lemma angleToHz_Num (a : Q) :
  angleToHz (Num a) = Num (inject_Z (round_half_up ((10 # 27) * sweep a + 70))).
Proof.
  unfold angleToHz. rewrite Math_sweep.
  cbn -[Qplus Qmult Qdiv Qfloor inject_Z Qopp sweep].
  rewrite Math_round_Num. f_equal. f_equal. apply round_half_up_comp. field.
Qed.

Lemma round_half_up_mono (v v' : Q) :
  v <= v' -> (round_half_up v <= round_half_up v')%Z.
Proof. intros H. unfold round_half_up. apply Qfloor_resp_le. lra. Qed.

Lemma round_half_up_between (v : Q) (lo hi : Z) :
  inject_Z lo <= v -> v <= inject_Z hi -> (lo <= round_half_up v <= hi)%Z.
Proof.
  intros Hlo Hhi. split.
  - rewrite <- (round_half_up_Z lo). apply round_half_up_mono. exact Hlo.
  - rewrite <- (round_half_up_Z hi). apply round_half_up_mono. exact Hhi.
Qed.

Lemma angleToHz_setting (a : Q) : frequency_setting (angleToHz (Num a)).
Proof.
  rewrite angleToHz_Num. eexists. split; [reflexivity |].
  destruct (sweep_bounds a) as [Hlo Hhi].
  apply round_half_up_between.
  - change (inject_Z 20) with 20. lra.
  - change (inject_Z 120) with 120. lra.
Qed.

(** X1. Whatever the angle, the infinities included and NaN alone excepted,
    [angleToHz] returns an integer number of Hz between 20 and 120. *)
Theorem angleToHz_is_a_setting (a : jsnum) :
  a <> NaN -> frequency_setting (angleToHz a).
Proof.
  intros Ha. destruct a as [q | | |].
  - apply angleToHz_setting.
  - contradiction.
  - exists 120%Z. split; [reflexivity | lia].
  - exists 20%Z. split; [reflexivity | lia].
Qed.

Lemma angleToHz_is_a_setting_witness :
  PosInf <> NaN /\ frequency_setting (angleToHz PosInf).
Proof.
  assert (PosInf <> NaN) as H by discriminate.
  split; [exact H | exact (angleToHz_is_a_setting PosInf H)].
Defined.

(** X2. Outside the sweep the angle is clamped to the nearest bound: every
    angle of 135 degrees or more, and +Infinity, gives 120 Hz; every angle of
    -135 degrees or less, and -Infinity, gives 20 Hz; NaN gives NaN. *)
Theorem angleToHz_clamps_outside_sweep :
  (forall a : Q, 135 <= a -> angleToHz (Num a) = Num 120) /\
  (forall a : Q, a <= -135 -> angleToHz (Num a) = Num 20) /\
  angleToHz PosInf = Num 120 /\ angleToHz NegInf = Num 20 /\
  angleToHz NaN = NaN.
Proof.
  split; [| split; [| repeat split]].
  - intros a Ha. rewrite angleToHz_Num.
    destruct (sweep_cases a) as [[_ ->] | [(_ & H & _) | [H _]]]; [| lra | lra].
    reflexivity.
  - intros a Ha. rewrite angleToHz_Num.
    assert (sweep a == -135) as E.
    { destruct (sweep_cases a) as [[H _] | [(H1 & _ & ->) | [_ ->]]]; lra. }
    rewrite (round_half_up_comp _ 20); [reflexivity |]. rewrite E. reflexivity.
Qed.

Lemma angleToHz_clamps_outside_sweep_witness :
  angleToHz (Num 180) = Num 120 /\ angleToHz (Num (-170)) = Num 20.
Proof.
  destruct angleToHz_clamps_outside_sweep as (Hhi & Hlo & _).
  split; [apply Hhi | apply Hlo]; unfold Qle; simpl; lia.
Defined.






(** ** [setHz] and the display *)

Lemma setHz_display (hz : jsnum) (w : World) :
  let w' := snd (setHz hz w) in
  readoutEl w' = option_map (fun _ => stored_for hz) (readoutEl w) /\
  knobEl w' = option_map (fun _ => stored_for hz) (knobEl w) /\
  indicatorEl w' = option_map (fun _ => hzToAngle (stored_for hz)) (indicatorEl w).
Proof.
  destruct w as [ctx go gg gl gr to tg tr hz0 ro kn ind act].
  unfold setHz, stored_for. generalize (Math_max MIN_HZ (Math_min MAX_HZ (Math_round hz))).
  intros s. destruct gr, ctx as [c|], go as [o|], s; js_eval; auto.
Qed.

Lemma clamp_clamp (r : Z) : clamp (clamp r 20 120) 20 120 = clamp r 20 120.
Proof. unfold clamp. lia. Qed.

Lemma stored_for_idempotent (x : jsnum) : stored_for (stored_for x) = stored_for x.
Proof.
  destruct x as [v| | |]; try reflexivity.
  rewrite !stored_for_Num, round_half_up_Z, clamp_clamp. reflexivity.
Qed.

Lemma display_in_sync_setHz (hz : jsnum) (w : World) :
  display_in_sync (snd (setHz hz w)).
Proof.
  destruct (setHz_display hz w) as (H1 & H2 & H3).
  unfold display_in_sync. rewrite setHz_stores, H1, H2, H3.
  destruct (readoutEl w), (knobEl w), (indicatorEl w); repeat split.
Qed.

(** X6. [setHz] is idempotent on what it stores: requesting the stored value
    again, as the script does when the page is loaded, leaves the stored
    frequency, the readout, the ARIA value and the indicator as they are, for
    every request, NaN and the infinities included. *)
Theorem setHz_stored_value_again (hz : jsnum) (w : World) :
  let w1 := snd (setHz hz w) in
  same_knob w1 (snd (setHz (currentHz w1) w1)).
Proof.
  intros w1.
  destruct (setHz_display (currentHz w1) w1) as (H1 & H2 & H3).
  destruct (display_in_sync_setHz hz w) as (D1 & D2 & D3). fold w1 in D1, D2, D3.
  assert (stored_for (currentHz w1) = currentHz w1) as Hs.
  { unfold w1. rewrite setHz_stores. apply stored_for_idempotent. }
  unfold same_knob. rewrite setHz_stores, H1, H2, H3, Hs. auto.
Qed.

(** ** The session operations in every state *)

Ltac js_eval_all :=
  cbv [invoke when try_catch gain_gain_value sched_step_eqb];
  js_eval.

Lemma invoke_same_knob (cb : callback) (w : World) : same_knob w (invoke cb w).
Proof. destruct cb; repeat split. Qed.

Lemma same_knob_refl (w : World) : same_knob w w.
Proof. repeat split. Qed.

Lemma same_knob_trans (w1 w2 w3 : World) :
  same_knob w1 w2 -> same_knob w2 w3 -> same_knob w1 w3.
Proof.
  intros (A1 & A2 & A3 & A4) (B1 & B2 & B3 & B4).
  repeat split; congruence.
Qed.

Lemma invoke_all_same_knob (cbs : list callback) (w : World) :
  same_knob w (invoke_all cbs w).
Proof.
  revert w. induction cbs as [|cb cbs IH]; intros w; [apply same_knob_refl |].
  rewrite invoke_all_cons.
  exact (same_knob_trans _ _ _ (invoke_same_knob cb w) (IH _)).
Qed.

Lemma invoke_lit (cb : callback) (w : World) :
  lit_only_running w -> lit_only_running (invoke cb w).
Proof. unfold lit_only_running. destruct cb; cbn; auto; discriminate. Qed.

Lemma invoke_all_lit (cbs : list callback) (w : World) :
  lit_only_running w -> lit_only_running (invoke_all cbs w).
Proof.
  revert w. induction cbs as [|cb cbs IH]; intros w H; [exact H |].
  rewrite invoke_all_cons. apply IH, invoke_lit, H.
Qed.

Lemma elapse_same_knob (dt : Q) (w : World) : same_knob w (elapse dt w).
Proof.
  destruct (audioContext w) as [c|] eqn:Hc.
  - rewrite (elapse_handlers dt w c Hc).
    exact (invoke_all_same_knob _ w).
  - unfold elapse. rewrite Hc. apply same_knob_refl.
Qed.

Lemma elapse_lit (dt : Q) (w : World) :
  lit_only_running w -> lit_only_running (elapse dt w).
Proof.
  intros H. destruct (audioContext w) as [c|] eqn:Hc.
  - rewrite (elapse_handlers dt w c Hc).
    exact (invoke_all_lit _ w H).
  - unfold elapse. rewrite Hc. exact H.
Qed.

Section EveryState.

Context {host : AudioEngine}.

Ltac soft_stop_outcomes :=
  repeat match goal with
    | |- context [softStopNode ?o ?g ?cb ?w] =>
        let c' := fresh "c" in
        let H := fresh "H" in
        destruct (softStopNode_cases o g cb w _ eq_refl) as [c' [H | H]];
        rewrite H; clear H; js_eval_all
    end.

(** What the panic stop leaves, whatever the state it is called in. *)
Lemma stopAllAudio_any (w : World) :
  let w' := snd (stopAllAudio w) in
  fst (stopAllAudio w) = Normal tt /\
  same_knob w w' /\
  (audioContext w = None -> w' = w) /\
  (audioContext w <> None ->
   audioContext w' <> None /\ active_audio w' = false /\
   (genRunning w' = true -> genOsc w' = None \/ genGain w' = None) /\
   (testRunning w' = true -> testOsc w' = None \/ testGain w' = None)) /\
  (genRunning w' = true -> genRunning w = true) /\
  (testRunning w' = true -> testRunning w = true).
Proof.
  destruct w as [[c|] go gg gl gr to tg tr hz0 ro kn ind act];
    unfold stopAllAudio; [| js_eval; repeat split; auto; congruence].
  destruct gr, go as [o|], gg as [g|], tr, to as [o'|], tg as [g'|];
    js_eval; soft_stop_outcomes;
    repeat split; auto; intros; congruence.
Qed.

Lemma stopGenerator_any (w : World) :
  let w' := snd (stopGenerator w) in
  fst (stopGenerator w) = Normal tt /\
  same_knob w w' /\
  (lit_only_running w -> lit_only_running w') /\
  (genRunning w' = true ->
   w' = w /\ (audioContext w = None \/ genOsc w = None \/ genGain w = None)) /\
  testRunning w' = testRunning w /\
  testOsc w' = testOsc w /\ testGain w' = testGain w /\
  (audioContext w = None -> audioContext w' = None).
Proof.
  destruct w as [[c|] go gg gl gr to tg tr hz0 ro kn ind act];
    unfold stopGenerator, lit_only_running;
    destruct gr, go as [o|], gg as [g|];
    js_eval; soft_stop_outcomes;
    repeat split; auto; intros; try congruence; auto.
Qed.

Lemma startGenerator_split (w : World) :
  startGenerator w
  = if genRunning w then (Normal tt, w)
    else if testRunning w then bind stopAllAudio (fun _ => beginGenerator) w
         else beginGenerator w.
Proof.
  destruct w as [ctx go gg gl gr to tg tr hz0 ro kn ind act].
  destruct gr, tr; reflexivity.
Qed.

Lemma playTestTone_split (w : World) :
  playTestTone w
  = if testRunning w then (Normal tt, w)
    else if genRunning w then bind stopGenerator (fun _ => beginTestTone) w
         else beginTestTone w.
Proof.
  destruct w as [ctx go gg gl gr to tg tr hz0 ro kn ind act].
  destruct gr, tr; reflexivity.
Qed.

Lemma beginGenerator_any (w : World) :
  let w' := snd (beginGenerator w) in
  same_knob w w' /\
  (lit_only_running w -> lit_only_running w') /\
  testRunning w' = testRunning w /\
  testOsc w' = testOsc w /\ testGain w' = testGain w /\
  (audioContext w <> None -> audioContext w' <> None) /\
  (has_AudioContext = false -> audioContext w = None ->
   beginGenerator w = (Throw TypeError, w)).
Proof.
  destruct w as [[c|] go gg gl gr to tg tr hz0 ro kn ind act];
    unfold beginGenerator, ensureContext, lit_only_running.
  - destruct hz0; js_eval; repeat split; auto; intros; congruence.
  - destruct has_AudioContext.
    + destruct hz0; js_eval; repeat split; auto; intros; congruence.
    + js_eval. repeat split; auto; intros; congruence.
Qed.

Lemma beginTestTone_any (w : World) :
  let w' := snd (beginTestTone w) in
  same_knob w w' /\
  (lit_only_running w -> lit_only_running w') /\
  genRunning w' = genRunning w /\
  genOsc w' = genOsc w /\ genGain w' = genGain w /\ genLPF w' = genLPF w /\
  (audioContext w <> None -> audioContext w' <> None) /\
  (has_AudioContext = false -> audioContext w = None ->
   beginTestTone w = (Throw TypeError, w)).
Proof.
  destruct w as [[c|] go gg gl gr to tg tr hz0 ro kn ind act];
    unfold beginTestTone, ensureContext, lit_only_running.
  - js_eval; repeat split; auto; intros; congruence.
  - destruct has_AudioContext; js_eval; repeat split; auto; intros; congruence.
Qed.

Lemma stopAllAudio_lit (w : World) :
  lit_only_running w -> lit_only_running (snd (stopAllAudio w)).
Proof.
  intros H. destruct (stopAllAudio_any w) as (_ & _ & Hnone & Hsome & _).
  destruct (audioContext w) as [c|] eqn:Hc.
  - destruct Hsome as (_ & Hoff & _); [congruence |].
    unfold lit_only_running. rewrite Hoff. discriminate.
  - rewrite (Hnone eq_refl). exact H.
Qed.

Lemma startGenerator_any (w : World) :
  same_knob w (snd (startGenerator w)) /\
  (lit_only_running w -> lit_only_running (snd (startGenerator w))).
Proof.
  rewrite startGenerator_split.
  destruct (genRunning w); [split; [apply same_knob_refl | auto] |].
  destruct (testRunning w).
  - unfold bind.
    destruct (stopAllAudio_any w) as (Hn & Hk & _).
    pose proof (stopAllAudio_lit w) as Hl.
    destruct (stopAllAudio w) as [r w1]. cbn in Hn, Hk, Hl. subst r.
    destruct (beginGenerator_any w1) as (Hk' & Hl' & _).
    split; [exact (same_knob_trans _ _ _ Hk Hk') | auto].
  - destruct (beginGenerator_any w) as (Hk' & Hl' & _). split; assumption.
Qed.

Lemma playTestTone_any (w : World) :
  same_knob w (snd (playTestTone w)) /\
  (lit_only_running w -> lit_only_running (snd (playTestTone w))).
Proof.
  rewrite playTestTone_split.
  destruct (testRunning w); [split; [apply same_knob_refl | auto] |].
  destruct (genRunning w).
  - unfold bind.
    destruct (stopGenerator_any w) as (Hn & Hk & Hl & _).
    destruct (stopGenerator w) as [r w1]. cbn in Hn, Hk, Hl. subst r.
    destruct (beginTestTone_any w1) as (Hk' & Hl' & _).
    split; [exact (same_knob_trans _ _ _ Hk Hk') | auto].
  - destruct (beginTestTone_any w) as (Hk' & Hl' & _). split; assumption.
Qed.

Lemma setHz_lit (hz : jsnum) (w : World) :
  lit_only_running w -> lit_only_running (snd (setHz hz w)).
Proof.
  destruct (setHz_session hz w) as (Hg & Ht & _ & _ & _ & _ & _ & Ha).
  unfold lit_only_running. rewrite Hg, Ht, Ha. auto.
Qed.

(** Every action but a frequency request leaves the knob alone. *)
Lemma perform_same_knob (a : action) (w : World) :
  (forall v, a <> SetHz v) -> same_knob w (perform a w).
Proof.
  intros Hne. destruct a as [ | | | | v | dt]; cbn [perform].
  - apply startGenerator_any.
  - apply stopGenerator_any.
  - apply playTestTone_any.
  - apply stopAllAudio_any.
  - destruct (Hne v eq_refl).
  - apply elapse_same_knob.
Qed.

Lemma perform_lit (a : action) (w : World) :
  lit_only_running w -> lit_only_running (perform a w).
Proof.
  intros H. destruct a as [ | | | | v | dt]; cbn [perform].
  - apply startGenerator_any, H.
  - apply stopGenerator_any, H.
  - apply playTestTone_any, H.
  - apply stopAllAudio_lit, H.
  - apply setHz_lit, H.
  - apply elapse_lit, H.
Qed.

End EveryState.

(** ** The stored frequency and its display along every run *)


Lemma stored_for_setting (hz : jsnum) :
  hz <> NaN -> frequency_setting (stored_for hz).
Proof.
  intros Hne. destruct hz as [v| | |]; [| congruence | |].
  - rewrite stored_for_Num. eexists. split; [reflexivity |]. unfold clamp. lia.
  - exists 120%Z. split; [reflexivity | lia].
  - exists 20%Z. split; [reflexivity | lia].
Qed.

Section Runs.

Context {host : AudioEngine}.



(** X8. The stored frequency is always an integer from 20 to 120: after every
    run from the loaded page in which no request is NaN. *)
Theorem frequency_stays_a_setting (readout knob indicator : option jsnum)
    (l : list action) :
  forallb no_NaN_request l = true ->
  frequency_setting (currentHz (run l (loaded readout knob indicator))).
Proof.
  assert (forall w, forallb no_NaN_request l = true ->
                    frequency_setting (currentHz w) ->
                    frequency_setting (currentHz (run l w))) as Hrun.
  { induction l as [|a l IH]; intros w Hl H; [exact H |].
    cbn in Hl. apply andb_prop in Hl as [Ha Hl].
    apply (IH (perform a w) Hl).
    destruct (no_NaN_request a) eqn:Hreq; [| discriminate].
    destruct a as [ | | | | v | dt];
      try (assert (same_knob w (perform _ w)) as (-> & _)
            by (apply perform_same_knob; discriminate);
           exact H).
    cbn [perform]. rewrite setHz_stores. apply stored_for_setting.
    intros ->. discriminate. }
  intros Hl. apply Hrun; [exact Hl |].
  unfold loaded. cbv zeta. rewrite setHz_stores. apply stored_for_setting.
  discriminate.
Qed.

(** X9. Starting, stopping, the test tone, the panic stop and the passing of
    time never change the stored frequency or what the page displays of it:
    the setting persists across every run that contains no request. *)
Theorem session_leaves_knob_alone (l : list action) (w : World) :
  (forall v, SetHz v ∉ l) -> same_knob w (run l w).
Proof.
  revert w. induction l as [|a l IH]; intros w Hl; [apply same_knob_refl |].
  apply (same_knob_trans w (perform a w)).
  - apply perform_same_knob. intros v ->. apply (Hl v). left.
  - apply IH. intros v Hin. apply (Hl v). right. exact Hin.
Qed.

(** X10. The [active-audio] class is on the body only while a source is
    running: from a state where this holds, it holds after every run,
    delayed release callbacks included. *)
Theorem indicator_lit_only_while_running (l : list action) (w : World) :
  lit_only_running w -> lit_only_running (run l w).
Proof.
  revert w. induction l as [|a l IH]; intros w H; [exact H |].
  apply (IH (perform a w)), perform_lit, H.
Qed.

End Runs.

Lemma frequency_stays_a_setting_witness :
  frequency_setting
    (currentHz (run (host := steady_engine)
                  [SetHz (Num 250); StartGenerator; SetHz PosInf; Elapse 1;
                   SetHz (Num 33.5); StopGenerator]
                  page)).
Proof. apply (frequency_stays_a_setting (host := steady_engine)). reflexivity. Defined.

Lemma session_leaves_knob_alone_witness :
  same_knob generator_playing
    (run (host := steady_engine)
       [StopGenerator; Elapse 0.07; PlayTestTone; Panic; StartGenerator]
       generator_playing).
Proof.
  apply (session_leaves_knob_alone (host := steady_engine)).
  intros v Hin. repeat (apply elem_of_cons in Hin as [Hin | Hin]; [discriminate |]).
  inversion Hin.
Defined.

Lemma indicator_lit_only_while_running_witness :
  lit_only_running
    (run (host := steady_engine) (stale_test_release ++ [StartGenerator; Elapse 9])
       page).
Proof.
  apply (indicator_lit_only_while_running (host := steady_engine)).
  intros H. discriminate H.
Defined.


(** ** Stops: exception safety and idempotence *)

Section Stops.

Context {host : AudioEngine}.

Lemma softStopNode_normal (o g : nat) (cb : callback) (w : World) :
  fst (softStopNode o g cb w) = Normal tt.
Proof.
  destruct (audioContext w) as [c|] eqn:Hc.
  - destruct (softStopNode_cases o g cb w c Hc) as [c' [-> | ->]]; reflexivity.
  - destruct w as [ctx go gg gl gr to tg tr hz0 ro kn ind act].
    cbn in Hc. subst ctx. unfold softStopNode. js_eval_all. reflexivity.
Qed.

(** X11. No stop operation lets an exception out, in any state and whatever
    the engine does: [softStopNode], [stopGenerator] and [stopAllAudio]
    always complete normally. *)
Theorem stops_never_throw (w : World) (o g : nat) (onDone : callback) :
  fst (softStopNode o g onDone w) = Normal tt /\
  fst (stopGenerator w) = Normal tt /\
  fst (stopAllAudio w) = Normal tt.
Proof.
  split; [apply softStopNode_normal |].
  split; [apply stopGenerator_any | apply stopAllAudio_any].
Qed.

Lemma stopGenerator_skips (w : World) :
  genRunning w = false \/ audioContext w = None \/
  genOsc w = None \/ genGain w = None ->
  stopGenerator w = (Normal tt, w).
Proof.
  destruct w as [[c|] [o|] [g|] gl [|] to tg tr hz0 ro kn ind act];
    cbn; intros [H | [H | [H | H]]]; try discriminate; reflexivity.
Qed.

Lemma stopAllAudio_skips (w : World) :
  (audioContext w <> None ->
   active_audio w = false /\
   (genRunning w = true -> genOsc w = None \/ genGain w = None) /\
   (testRunning w = true -> testOsc w = None \/ testGain w = None)) ->
  stopAllAudio w = (Normal tt, w).
Proof.
  destruct w as [[c|] go gg gl gr to tg tr hz0 ro kn ind act];
    cbn; intros H; [| reflexivity].
  destruct H as (Ha & Hg & Ht); [discriminate |]. rewrite Ha.
  destruct gr, go as [o|], gg as [g|];
    try (destruct (Hg eq_refl); discriminate);
    destruct tr, to as [o'|], tg as [g'|];
    try (destruct (Ht eq_refl); discriminate);
    reflexivity.
Qed.

(** X12. Both stop operations are idempotent in every state: a second
    [stopAllAudio] or [stopGenerator] right after the first changes nothing
    and schedules nothing. *)
Theorem stops_are_idempotent (w : World) :
  stopAllAudio (snd (stopAllAudio w)) = (Normal tt, snd (stopAllAudio w)) /\
  stopGenerator (snd (stopGenerator w)) = (Normal tt, snd (stopGenerator w)).
Proof.
  split.
  - destruct (stopAllAudio_any w) as (_ & _ & Hnone & Hsome & _).
    apply stopAllAudio_skips. intros Hc'.
    destruct (audioContext w) as [c|] eqn:Hc.
    + destruct Hsome as (_ & Hoff & Hg & Ht); [congruence | auto].
    + rewrite (Hnone eq_refl) in Hc'. congruence.
  - destruct (stopGenerator_any w) as (_ & _ & _ & Hrun & _).
    apply stopGenerator_skips.
    destruct (genRunning (snd (stopGenerator w))) eqn:E; [| left; reflexivity].
    destruct (Hrun eq_refl) as [-> Hguard]. right. exact Hguard.
Qed.

End Stops.

(** ** An engine without audio *)

Section NoAudio.

Context {host : AudioEngine}.

Hypothesis no_constructor : has_AudioContext = false.

Lemma perform_silent (a : action) (w : World) : silent w -> silent (perform a w).
Proof.
  intros (Hc & [Hg Ht] & Ha). destruct a as [ | | | | v | dt]; cbn [perform].
  - rewrite startGenerator_split, Hg, Ht.
    destruct (beginGenerator_any w) as (_ & _ & _ & _ & _ & _ & Hthrow).
    rewrite (Hthrow no_constructor Hc). repeat split; assumption.
  - rewrite stopGenerator_skips by auto. repeat split; assumption.
  - rewrite playTestTone_split, Hg, Ht.
    destruct (beginTestTone_any w) as (_ & _ & _ & _ & _ & _ & _ & Hthrow).
    rewrite (Hthrow no_constructor Hc). repeat split; assumption.
  - destruct (stopAllAudio_any w) as (_ & _ & Hnone & _).
    rewrite (Hnone Hc). repeat split; assumption.
  - destruct (setHz_session v w) as (Hg' & Ht' & _ & _ & _ & _ & _ & Ha').
    unfold silent, Idle. rewrite Hg', Ht', Ha', (setHz_without_generator v w Hg).
    auto.
  - unfold elapse. rewrite Hc. repeat split; assumption.
Qed.

(** X13. Where the browser offers no [AudioContext], no run ever leaves
    [Idle]: no context is created, no flag is set, the indicator stays off,
    and [startGenerator] and [playTestTone] end with a [TypeError] that
    changes nothing. *)
Theorem without_audio_nothing_starts (readout knob indicator : option jsnum)
    (l : list action) :
  let w := run l (loaded readout knob indicator) in
  audioContext w = None /\ Idle w /\ active_audio w = false /\
  startGenerator w = (Throw TypeError, w) /\
  playTestTone w = (Throw TypeError, w).
Proof.
  assert (forall w, silent w -> silent (run l w)) as Hrun.
  { induction l as [|a l IH]; intros w H; [exact H |].
    apply (IH (perform a w)), perform_silent, H. }
  assert (silent (loaded readout knob indicator)) as H0.
  { repeat split. }
  intros w. destruct (Hrun _ H0) as (Hc & [Hg Ht] & Ha). fold w in Hc, Hg, Ht, Ha.
  split; [exact Hc |]. split; [split; assumption |]. split; [exact Ha |].
  split.
  - rewrite startGenerator_split, Hg, Ht.
    apply (beginGenerator_any w); assumption.
  - rewrite playTestTone_split, Hg, Ht.
    apply (beginTestTone_any w); assumption.
Qed.

End NoAudio.

Lemma without_audio_nothing_starts_witness :
  let w := run (host := mute_engine)
             [StartGenerator; SetHz (Num 45); PlayTestTone; Panic; Elapse 10]
             page in
  audioContext w = None /\ Idle w /\ active_audio w = false /\
  startGenerator (host := mute_engine) w = (Throw TypeError, w) /\
  playTestTone (host := mute_engine) w = (Throw TypeError, w).
Proof.
  apply (without_audio_nothing_starts (host := mute_engine) eq_refl).
Defined.

(** ** Waiting and the nodes of the context *)

Lemma finish_unstopped (t : Q) (n : OscillatorNode) :
  stopAt n = None -> finish t n = n.
Proof. intros H. unfold finish, due. rewrite H, andb_false_r. reflexivity. Qed.

Lemma wait_context (dts : list Q) :
  forall (w : World) (c : AudioContext),
    audioContext w = Some c ->
    exists c' : AudioContext,
      audioContext (wait dts w) = Some c' /\
      length (oscs c') = length (oscs c) /\
      gains c' = gains c /\ filters c' = filters c /\ wires c' = wires c /\
      (forall (i : nat) (n : OscillatorNode),
          oscs c !! i = Some n -> stopAt n = None -> oscs c' !! i = Some n).
Proof.
  induction dts as [|dt dts IH]; intros w c Hc.
  - exists c. repeat split; auto.
  - rewrite wait_cons, (elapse_handlers dt w c Hc).
    set (t := currentTime c + forward dt).
    edestruct (IH (set_audioContext (Some (at_time t c)) (invoke_all (omap (notification t) (oscs c)) w)))
      as (c' & H1 & H2 & H3 & H4 & H5 & H6); [reflexivity |].
    exists c'. split; [exact H1 |].
    split; [rewrite H2; unfold at_time; cbn; apply length_fmap |].
    split; [exact H3 |]. split; [exact H4 |]. split; [exact H5 |].
    intros i n Hi Hn. apply H6; [| exact Hn].
    unfold at_time. cbn. rewrite list_lookup_fmap, Hi. cbn.
    rewrite (finish_unstopped t n Hn). reflexivity.
Qed.

(** ** Full transitions of the session *)

Section Transitions.

Context {host : AudioEngine}.

Lemma soft_stopped_shape (o g : nat) (cb : callback) (c : AudioContext) :
  let c' := soft_stopped o g cb c in
  currentTime c' = currentTime c /\
  length (oscs c') = length (oscs c) /\ length (gains c') = length (gains c) /\
  filters c' = filters c /\ wires c' = wires c.
Proof.
  unfold soft_stopped, on_osc, on_gain. cbn. rewrite !length_alter. auto.
Qed.

(** X14. From [Idle], with a context at hand and a finite stored frequency,
    [startGenerator] creates one oscillator (sine, at the stored frequency),
    one low-pass filter (120 Hz, Q 0.707) and one gain, wires oscillator to
    filter to gain to output, starts the oscillator, fades the gain from 0
    at [now] to 0.25 at [now + 0.08], holds the three nodes, sets
    [genRunning] and lights the indicator; the test tone variables and the
    nodes that existed are untouched. *)
Theorem generator_start_transition (w : World) (q : Q) :
  Idle w -> context_available w -> currentHz w = Num q ->
  let c0 := context_of w in
  let now := currentTime c0 in
  let w1 := snd (startGenerator w) in
  fst (startGenerator w) = Normal tt /\
  (exists (c1 : AudioContext) (o g f : nat),
      audioContext w1 = Some c1 /\
      genOsc w1 = Some o /\ genGain w1 = Some g /\ genLPF w1 = Some f /\
      oscs c1 = oscs c0 ++ [mkOsc sine (mkParam q []) true None None false] /\
      filters c1 = filters c0 ++ [mkBiquad lowpass (mkParam 120 []) (mkParam 0.707 [])] /\
      gains c1 = gains c0 ++ [mkGain (mkParam 1 [SetValueAtTime 0 now;
                                                LinearRampToValueAtTime 0.25 (now + 0.08)])] /\
      oscs c1 !! o = Some (mkOsc sine (mkParam q []) true None None false) /\
      filters c1 !! f = Some (mkBiquad lowpass (mkParam 120 []) (mkParam 0.707 [])) /\
      gains c1 !! g = Some (mkGain (mkParam 1 [SetValueAtTime 0 now;
                                               LinearRampToValueAtTime 0.25 (now + 0.08)])) /\
      wires c1 = wires c0 ++ [(OscOut o, FilterIO f); (FilterIO f, GainIO g);
                              (GainIO g, Destination)]) /\
  genRunning w1 = true /\ testRunning w1 = false /\ active_audio w1 = true /\
  testOsc w1 = testOsc w /\ testGain w1 = testGain w.
Proof.
  intros Hidle Hav Hhz c0 now w1. subst w1.
  rewrite (startGenerator_from_idle w q Hidle Hav Hhz). cbn [fst snd]. fold c0.
  split; [reflexivity |]. split.
  { exists (generator_started q c0), (length (oscs c0)), (length (gains c0)),
      (length (filters c0)).
    repeat split; try reflexivity; apply lookup_last. }
  repeat split.
Qed.

(** The state the generator's soft stop leaves, and what waiting 70 ms or
    more makes of it. *)
Lemma generator_stopped_and_released (w : World) (c : AudioContext) (o g : nat)
    (n : OscillatorNode) (gn : GainNode) (dts : list Q) :
  GeneratorActive w c o g n gn -> rejects o = None -> 0.07 <= total dts ->
  exists (cbs : list callback) (c' : AudioContext),
    wait dts (snd (stopGenerator w))
    = set_audioContext (Some c')
        (invoke_all cbs
           (set_active_audio false
              (set_audioContext (Some (soft_stopped o g ReleaseGenerator c))
                 (set_genRunning false w)))) /\
    ReleaseGenerator ∈ cbs /\
    length (oscs c') = length (oscs c) /\ length (gains c') = length (gains c) /\
    length (filters c') = length (filters c).
Proof.
  intros [Hc Hr Ht Ho Hg Hn Hs He Hgn] Hrej Hdts.
  rewrite (stopGenerator_scheduled w c o g) by assumption. cbn [snd].
  set (cs := soft_stopped o g ReleaseGenerator c).
  set (w1 := set_active_audio false _).
  destruct (soft_stopped_shape o g ReleaseGenerator c) as (S1 & S2 & S3 & S4 & S5).
  fold cs in S1, S2, S3, S4, S5.
  destruct (wait_notifies o (currentTime c + 0.07) ReleaseGenerator dts w1 cs
              (set_onended (Some ReleaseGenerator)
                 (osc_stop (currentTime c + 0.07) n)))
    as (cbs & c' & Hw & Hin); try reflexivity.
  - apply soft_stopped_osc. exact Hn.
  - exact Hs.
  - exact He.
  - rewrite S1. lra.
  - rewrite S1. lra.
  - destruct (wait_context dts w1 cs eq_refl) as (c'' & W1 & W2 & W3 & W4 & _).
    rewrite Hw in W1. injection W1 as <-.
    exists cbs, c'. split; [exact Hw |]. split; [exact Hin |].
    rewrite W2, W3, W4, S2, S3, S4. auto.
Qed.

(** X15. A generator that is stopped and left alone for 70 ms or more can be
    started again: the new start finds the session [Idle] with the old
    references released, creates fresh nodes behind the old ones and leaves
    the generator active and held, at the stored frequency. *)
Theorem restart_after_release (w : World) (c : AudioContext) (o g : nat)
    (n : OscillatorNode) (gn : GainNode) (q : Q) (dts : list Q) :
  GeneratorActive w c o g n gn -> rejects o = None ->
  currentHz w = Num q -> 0.07 <= total dts ->
  let w2 := wait dts (snd (stopGenerator w)) in
  let w3 := snd (startGenerator w2) in
  Idle w2 /\ genOsc w2 = None /\ genGain w2 = None /\ genLPF w2 = None /\
  fst (startGenerator w2) = Normal tt /\
  exists (c3 : AudioContext) (gn3 : GainNode),
    GeneratorActive w3 c3 (length (oscs c)) (length (gains c))
      (mkOsc sine (mkParam q []) true None None false) gn3 /\
    genLPF w3 = Some (length (filters c)) /\
    active_audio w3 = true.
Proof.
  intros Hact Hrej Hhz Hdts w2 w3.
  destruct (generator_stopped_and_released w c o g n gn dts Hact Hrej Hdts)
    as (cbs & c' & Hw & Hin & L1 & L2 & L3).
  destruct Hact as [Hc Hr Ht Ho Hg Hn Hs He Hgn].
  set (w1 := set_active_audio false _) in Hw.
  destruct (invoke_all_generator_released cbs w1 (or_introl Hin)) as (R1 & R2 & R3).
  destruct (invoke_all_keeps cbs w1) as (K1 & _ & K3 & K4 & _).
  assert (Idle w2) as Hidle.
  { unfold w2. rewrite Hw. split.
    - change (genRunning (invoke_all cbs w1) = false). rewrite K1. reflexivity.
    - change (testRunning (invoke_all cbs w1) = false). apply K4.
      destruct w; cbn in *; assumption. }
  assert (context_available w2) as Hav.
  { left. unfold w2. rewrite Hw. discriminate. }
  assert (currentHz w2 = Num q) as Hhz2.
  { unfold w2. rewrite Hw. change (currentHz (invoke_all cbs w1) = Num q).
    rewrite K3. destruct w; cbn in *; assumption. }
  assert (context_of w2 = c') as Hctx.
  { unfold w2. rewrite Hw. reflexivity. }
  split; [exact Hidle |].
  split; [unfold w2; rewrite Hw; exact R1 |].
  split; [unfold w2; rewrite Hw; exact R2 |].
  split; [unfold w2; rewrite Hw; exact R3 |].
  unfold w3. rewrite (startGenerator_from_idle w2 q Hidle Hav Hhz2).
  cbn [fst snd]. rewrite Hctx, L1, L2, L3.
  split; [reflexivity |].
  eexists (generator_started q c'), _.
  split; [| split; reflexivity].
  constructor; try reflexivity.
  - cbn. rewrite <- L1. apply lookup_last.
  - cbn. rewrite <- L2. apply lookup_last.
Qed.


Lemma stopAllAudio_keeps_unheld_generator (w : World) :
  genOsc w = None \/ genGain w = None ->
  genRunning (snd (stopAllAudio w)) = genRunning w /\
  genOsc (snd (stopAllAudio w)) = genOsc w /\
  genGain (snd (stopAllAudio w)) = genGain w.
Proof.
  destruct w as [[c|] go gg gl gr to tg tr hz0 ro kn ind act];
    unfold stopAllAudio; cbn; intros Hno; [| js_eval; auto].
  destruct gr, go as [o|], gg as [g|];
    try (destruct Hno; discriminate);
    destruct tr, to as [o'|], tg as [g'|]; js_eval;
    repeat match goal with
      | |- context [softStopNode ?o ?g ?cb ?w] =>
          let c' := fresh "c" in
          let H := fresh "H" in
          destruct (softStopNode_cases o g cb w _ eq_refl) as [c' [H | H]];
          rewrite H; clear H; js_eval_all
      end; auto.
Qed.

(** X17. A generator that is started again before the release callback of
    its previous oscillator has run loses its references: once 70 ms have
    passed, [genRunning] is still true and the new oscillator is sounding
    with no stop time, but [genOsc], [genGain] and [genLPF] are null; from
    then on [stopGenerator] and [startGenerator] return at once and the
    panic stop leaves [genRunning] set. *)
Theorem restart_before_release_loses_generator (w : World) (c : AudioContext)
    (o g : nat) (n : OscillatorNode) (gn : GainNode) (q : Q) (dts : list Q) :
  GeneratorActive w c o g n gn -> rejects o = None ->
  currentHz w = Num q -> 0.07 <= total dts ->
  let w2 := snd (startGenerator (snd (stopGenerator w))) in
  let w3 := wait dts w2 in
  (genRunning w2 = true /\ genOsc w2 = Some (length (oscs c))) /\
  genRunning w3 = true /\
  genOsc w3 = None /\ genGain w3 = None /\ genLPF w3 = None /\
  (exists c3 : AudioContext,
      audioContext w3 = Some c3 /\
      oscs c3 !! length (oscs c)
      = Some (mkOsc sine (mkParam q []) true None None false)) /\
  stopGenerator w3 = (Normal tt, w3) /\
  startGenerator w3 = (Normal tt, w3) /\
  genRunning (snd (stopAllAudio w3)) = true /\
  genOsc (snd (stopAllAudio w3)) = None.
Proof.
  intros [Hc Hr Ht Ho Hg Hn Hs He Hgn] Hrej Hhz Hdts w2 w3.
  pose proof (stopGenerator_scheduled w c o g Hc Hr Ho Hg Hrej) as Hstop.
  set (cs := soft_stopped o g ReleaseGenerator c) in Hstop.
  set (ws := set_active_audio false _) in Hstop.
  destruct (soft_stopped_shape o g ReleaseGenerator c) as (S1 & S2 & S3 & S4 & S5).
  fold cs in S1, S2, S3, S4, S5.
  assert (Idle ws) as Hidle by (split; [reflexivity | exact Ht]).
  assert (context_available ws) as Hav by (left; discriminate).
  assert (currentHz ws = Num q) as Hhz' by exact Hhz.
  assert (w2 = snd (startGenerator ws)) as Hw2 by (unfold w2; rewrite Hstop; reflexivity).
  rewrite (startGenerator_from_idle ws q Hidle Hav Hhz') in Hw2. cbn [snd] in Hw2.
  change (context_of ws) with cs in Hw2. rewrite S2, S3, S4 in Hw2.
  set (c2 := generator_started q cs) in Hw2.
  assert (oscs c2 !! o
          = Some (set_onended (Some ReleaseGenerator)
                    (osc_stop (currentTime c + 0.07) n))) as Hold.
  { unfold c2, generator_started. cbn [oscs]. apply lookup_app_l_Some.
    exact (soft_stopped_osc o g ReleaseGenerator c n Hn). }
  assert (oscs c2 !! length (oscs c)
          = Some (mkOsc sine (mkParam q []) true None None false)) as Hnew.
  { unfold c2, generator_started. cbn [oscs]. rewrite <- S2. apply lookup_last. }
  assert (audioContext w2 = Some c2) as Hc2 by (rewrite Hw2; reflexivity).
  destruct (wait_notifies o (currentTime c + 0.07) ReleaseGenerator dts w2 c2
              (set_onended (Some ReleaseGenerator)
                 (osc_stop (currentTime c + 0.07) n)))
    as (cbs & c' & Hw & Hin); try reflexivity; try assumption.
  { change (currentTime c2) with (currentTime cs). rewrite S1. lra. }
  { change (currentTime c2) with (currentTime cs). rewrite S1. lra. }
  destruct (wait_context dts w2 c2 Hc2) as (c3 & W1 & _ & _ & _ & _ & W6).
  destruct (invoke_all_generator_released cbs w2 (or_introl Hin)) as (R1 & R2 & R3).
  destruct (invoke_all_keeps cbs w2) as (K1 & _).
  assert (genRunning w3 = true) as Hrun3.
  { unfold w3. rewrite Hw. change (genRunning (invoke_all cbs w2) = true).
    rewrite K1, Hw2. reflexivity. }
  assert (genOsc w3 = None) as Hno3 by (unfold w3; rewrite Hw; exact R1).
  split; [rewrite Hw2; split; reflexivity |].
  split; [exact Hrun3 |]. split; [exact Hno3 |].
  split; [unfold w3; rewrite Hw; exact R2 |].
  split; [unfold w3; rewrite Hw; exact R3 |].
  split; [exists c3; split; [exact W1 | apply W6; [exact Hnew | reflexivity]] |].
  split; [apply stopGenerator_skips; auto |].
  split; [apply startGenerator_running; exact Hrun3 |].
  destruct (stopAllAudio_keeps_unheld_generator w3 (or_introl Hno3)) as (A1 & A2 & _).
  rewrite A1, A2. split; assumption.
Qed.



End Transitions.

Lemma generator_start_transition_witness :
  let w1 := snd (startGenerator (host := steady_engine) page) in
  genRunning w1 = true /\ testRunning w1 = false /\ active_audio w1 = true /\
  testOsc w1 = testOsc page /\ testGain w1 = testGain page.
Proof.
  assert (Idle page) as Hidle by (split; reflexivity).
  assert (context_available (host := steady_engine) page) as Hav
    by (right; reflexivity).
  destruct (generator_start_transition (host := steady_engine) page 30 Hidle Hav
              eq_refl) as (_ & _ & H).
  exact H.
Defined.

Lemma restart_after_release_witness :
  let w2 := wait [0.03; 0.05]
              (snd (stopGenerator (host := steady_engine) generator_playing)) in
  let w3 := snd (startGenerator (host := steady_engine) w2) in
  Idle w2 /\ genOsc w2 = None /\ genRunning w3 = true /\ genOsc w3 = Some 1%nat.
Proof.
  destruct (restart_after_release (host := steady_engine) generator_playing
              playing_context 0 0 playing_osc playing_gain 30 [0.03; 0.05])
    as (H1 & H2 & _ & _ & _ & c3 & gn3 & [_ Hr _ Ho _ _ _ _ _] & _).
  - constructor; reflexivity.
  - reflexivity.
  - reflexivity.
  - apply Qle_bool_iff. reflexivity.
  - split; [exact H1 |]. split; [exact H2 |]. split; [exact Hr | exact Ho].
Defined.


Lemma restart_before_release_loses_generator_witness :
  let w3 := wait [0.07]
              (snd (startGenerator (host := steady_engine)
                      (snd (stopGenerator (host := steady_engine) generator_playing)))) in
  genRunning w3 = true /\ genOsc w3 = None /\
  stopGenerator (host := steady_engine) w3 = (Normal tt, w3).
Proof.
  destruct (restart_before_release_loses_generator (host := steady_engine)
              generator_playing playing_context 0 0 playing_osc playing_gain 30
              [0.07])
    as (_ & H1 & H2 & _ & _ & _ & H3 & _).
  - constructor; reflexivity.
  - reflexivity.
  - reflexivity.
  - apply Qle_bool_iff. reflexivity.
  - split; [exact H1 |]. split; [exact H2 | exact H3].
Defined.


(** ** Mutual exclusion while no notification arrives *)

(** X19. As long as every running source is held, calls keep it so and keep
    the two sources exclusive: after every sequence of [startGenerator],
    [stopGenerator], [playTestTone], panic stops and frequency requests with
    no [onended] notification in between, at most one of [genRunning] and
    [testRunning] is true, whatever the engine rejects. *)
Theorem exclusive_until_notified {host : AudioEngine} (l : list action) (w : World) :
  forallb is_call l = true -> held w -> exclusive w ->
  held (run l w) /\ exclusive (run l w) /\
  forall l1 l2 : list action, l = l1 ++ l2 -> exclusive (run l1 w).
Proof.
  intros Hl Hheld Hex.
  destruct (calls_keep_exclusive l w Hl Hheld Hex) as [H1 H2].
  split; [exact H1 |]. split; [exact H2 |].
  intros l1 l2 ->. rewrite forallb_app in Hl. apply andb_prop in Hl as [Hl1 _].
  apply (calls_keep_exclusive l1 w Hl1 Hheld Hex).
Qed.

Lemma exclusive_until_notified_witness :
  exclusive
    (run (host := rejecting_engine AtStop)
       [StartGenerator; PlayTestTone; StartGenerator; SetHz (Num 99); Panic;
        PlayTestTone; StartGenerator]
       page).
Proof.
  apply (exclusive_until_notified (host := rejecting_engine AtStop)).
  - reflexivity.
  - split; discriminate.
  - left. reflexivity.
Defined.

(** ** The keyboard *)

Lemma bind_ret_tt (m : JS unit) (w : World) : bind m (fun _ => ret tt) w = m w.
Proof. unfold bind, ret. destruct (m w) as [[[]|e] w']; reflexivity. Qed.

(** Each key makes at most one request: the six [if]s of the handler never
    fire together. *)
Lemma keydown_request (key : string) (w : World) :
  keydown key w
  = match key_request key (currentHz w) with
    | Some r => setHz r w
    | None => (Normal tt, w)
    end.
Proof.
  unfold keydown, key_request, when.
  destruct (String.eqb key "ArrowUp") eqn:E1;
    [apply String.eqb_eq in E1; subst key; cbn [orb];
     change ((_ <- (hz <- read currentHz; setHz (js_add hz (Num 1))) ; ret tt ;; ret tt ;; ret tt ;; ret tt ;; ret tt) w
             = setHz (js_add (currentHz w) (Num 1)) w) |].
  { unfold bind at 1. unfold bind at 1, read.
    destruct (setHz (js_add (currentHz w) (Num 1)) w) as [[[]|e] w']; reflexivity. }
  destruct (String.eqb key "ArrowRight") eqn:E2;
    [apply String.eqb_eq in E2; subst key; cbn [orb];
     unfold bind at 1; unfold bind at 1, read;
     destruct (setHz (js_add (currentHz w) (Num 1)) w) as [[[]|e] w']; reflexivity |].
  destruct (String.eqb key "ArrowDown") eqn:E3;
    [apply String.eqb_eq in E3; subst key; cbn [orb];
     unfold bind at 1, ret at 1; unfold bind at 1; unfold bind at 1, read;
     destruct (setHz (js_sub (currentHz w) (Num 1)) w) as [[[]|e] w']; reflexivity |].
  destruct (String.eqb key "ArrowLeft") eqn:E4;
    [apply String.eqb_eq in E4; subst key; cbn [orb];
     unfold bind at 1, ret at 1; unfold bind at 1; unfold bind at 1, read;
     destruct (setHz (js_sub (currentHz w) (Num 1)) w) as [[[]|e] w']; reflexivity |].
  destruct (String.eqb key "PageUp") eqn:E5;
    [apply String.eqb_eq in E5; subst key; cbn [orb];
     unfold bind at 1, ret at 1; unfold bind at 1, ret at 1;
     unfold bind at 1; unfold bind at 1, read;
     destruct (setHz (js_add (currentHz w) (Num 5)) w) as [[[]|e] w']; reflexivity |].
  destruct (String.eqb key "PageDown") eqn:E6;
    [apply String.eqb_eq in E6; subst key; cbn [orb];
     unfold bind at 1, ret at 1; unfold bind at 1, ret at 1;
     unfold bind at 1, ret at 1; unfold bind at 1; unfold bind at 1, read;
     destruct (setHz (js_sub (currentHz w) (Num 5)) w) as [[[]|e] w']; reflexivity |].
  destruct (String.eqb key "Home") eqn:E7;
    [apply String.eqb_eq in E7; subst key; cbn [orb];
     unfold bind at 1, ret at 1; unfold bind at 1, ret at 1;
     unfold bind at 1, ret at 1; unfold bind at 1, ret at 1; unfold bind at 1;
     destruct (setHz MIN_HZ w) as [[[]|e] w']; reflexivity |].
  destruct (String.eqb key "End") eqn:E8; reflexivity.
Qed.

Lemma stored_step (z d : Z) :
  stored_for (Num (inject_Z z + inject_Z d))
  = Num (inject_Z (clamp (z + d) 20 120)).
Proof.
  rewrite stored_for_Num.
  rewrite (round_half_up_comp _ (inject_Z (z + d))), round_half_up_Z;
    [reflexivity |].
  rewrite inject_Z_plus. reflexivity.
Qed.

Lemma press_stores (key : string) (w : World) (r : jsnum) :
  key_request key (currentHz w) = Some r ->
  currentHz (press key w) = stored_for r.
Proof.
  intros H. unfold press. rewrite keydown_request, H. apply setHz_stores.
Qed.

(** X20. On a stored frequency of [z] Hz the arrow keys step by one and the
    page keys by five, saturating at the bounds of the knob; Home and End jump
    to 20 and 120; no key press throws, and a key press that is none of the
    eight changes nothing. *)
Theorem keys_step_and_saturate (w : World) (z : Z) :
  currentHz w = Num (inject_Z z) -> (20 <= z <= 120)%Z ->
  currentHz (press "ArrowUp" w) = Num (inject_Z (Z.min (z + 1) 120)) /\
  currentHz (press "ArrowRight" w) = Num (inject_Z (Z.min (z + 1) 120)) /\
  currentHz (press "ArrowDown" w) = Num (inject_Z (Z.max (z - 1) 20)) /\
  currentHz (press "ArrowLeft" w) = Num (inject_Z (Z.max (z - 1) 20)) /\
  currentHz (press "PageUp" w) = Num (inject_Z (Z.min (z + 5) 120)) /\
  currentHz (press "PageDown" w) = Num (inject_Z (Z.max (z - 5) 20)) /\
  currentHz (press "Home" w) = Num 20 /\
  currentHz (press "End" w) = Num 120 /\
  (forall key : string, fst (keydown key w) = Normal tt) /\
  (forall key : string,
      key_request key (currentHz w) = None -> keydown key w = (Normal tt, w)).
Proof.
  intros Hhz Hz.
  assert (forall d : Z, stored_for (Num (inject_Z z + inject_Z d))
                        = Num (inject_Z (clamp (z + d) 20 120))) as Hstep
    by (intros d; apply stored_step).
  repeat split.
  - rewrite (press_stores "ArrowUp" w (Num (inject_Z z + inject_Z 1)))
      by (rewrite Hhz; reflexivity).
    rewrite Hstep. unfold clamp. f_equal. f_equal. lia.
  - rewrite (press_stores "ArrowRight" w (Num (inject_Z z + inject_Z 1)))
      by (rewrite Hhz; reflexivity).
    rewrite Hstep. unfold clamp. f_equal. f_equal. lia.
  - rewrite (press_stores "ArrowDown" w (Num (inject_Z z + inject_Z (-1))))
      by (rewrite Hhz; reflexivity).
    rewrite Hstep. unfold clamp. f_equal. f_equal. lia.
  - rewrite (press_stores "ArrowLeft" w (Num (inject_Z z + inject_Z (-1))))
      by (rewrite Hhz; reflexivity).
    rewrite Hstep. unfold clamp. f_equal. f_equal. lia.
  - rewrite (press_stores "PageUp" w (Num (inject_Z z + inject_Z 5)))
      by (rewrite Hhz; reflexivity).
    rewrite Hstep. unfold clamp. f_equal. f_equal. lia.
  - rewrite (press_stores "PageDown" w (Num (inject_Z z + inject_Z (-5))))
      by (rewrite Hhz; reflexivity).
    rewrite Hstep. unfold clamp. f_equal. f_equal. lia.
  - rewrite (press_stores "Home" w MIN_HZ) by reflexivity. reflexivity.
  - rewrite (press_stores "End" w MAX_HZ) by reflexivity. reflexivity.
  - intros key. rewrite keydown_request.
    destruct (key_request key (currentHz w)) as [r|] eqn:Hr; [| reflexivity].
    apply setHz_completes.
    destruct (stored_for_setting r) as (z' & -> & _); [| reflexivity].
    rewrite Hhz in Hr. unfold key_request in Hr.
    repeat match type of Hr with
           | (if ?b then _ else _) = _ => destruct b
           end; inversion Hr; discriminate.
  - intros key Hnone. rewrite keydown_request, Hnone. reflexivity.
Qed.

Lemma keys_step_and_saturate_witness :
  currentHz (press "ArrowUp" (press "End" page)) = Num 120 /\
  currentHz (press "PageDown" (press "End" page)) = Num 115 /\
  keydown "Tab" (press "End" page) = (Normal tt, press "End" page).
Proof.
  destruct (keys_step_and_saturate (press "End" page) 120 eq_refl ltac:(lia))
    as (H1 & _ & _ & _ & _ & H6 & _ & _ & _ & H10).
  split; [exact H1 |]. split; [exact H6 |]. apply H10. reflexivity.
Defined.

Lemma press_setting (key : string) (w : World) (z : Z) (d : Z) :
  currentHz w = Num (inject_Z z) ->
  key_request key (Num (inject_Z z)) = Some (Num (inject_Z z + inject_Z d)) ->
  currentHz (press key w) = Num (inject_Z (clamp (z + d) 20 120)).
Proof.
  intros Hhz Hreq. rewrite (press_stores key w (Num (inject_Z z + inject_Z d)))
    by (rewrite Hhz; exact Hreq).
  apply stored_step.
Qed.

(** X21. Key presses compose as counting does: from a stored frequency
    between 20 and 120, PageUp stores what five ArrowUp presses store and
    PageDown what five ArrowDown presses store; ArrowUp followed by ArrowDown
    is back at the start unless the start was 120, and ArrowDown followed by
    ArrowUp unless it was 20. *)
Theorem key_presses_compose (w : World) (z : Z) :
  currentHz w = Num (inject_Z z) -> (20 <= z <= 120)%Z ->
  let up := press "ArrowUp" in
  let down := press "ArrowDown" in
  currentHz (up (up (up (up (up w))))) = currentHz (press "PageUp" w) /\
  currentHz (down (down (down (down (down w))))) = currentHz (press "PageDown" w) /\
  ((z < 120)%Z -> currentHz (down (up w)) = currentHz w) /\
  ((20 < z)%Z -> currentHz (up (down w)) = currentHz w) /\
  currentHz (down (up w)) = Num (inject_Z (Z.min z 119)) /\
  currentHz (up (down w)) = Num (inject_Z (Z.max z 21)).
Proof.
  intros Hhz Hz up down.
  assert (forall (u : World) (y : Z), currentHz u = Num (inject_Z y) ->
            currentHz (up u) = Num (inject_Z (clamp (y + 1) 20 120))) as Hup.
  { intros u y Hu. apply (press_setting "ArrowUp" u y 1 Hu). reflexivity. }
  assert (forall (u : World) (y : Z), currentHz u = Num (inject_Z y) ->
            currentHz (down u) = Num (inject_Z (clamp (y + -1) 20 120))) as Hdown.
  { intros u y Hu. apply (press_setting "ArrowDown" u y (-1) Hu). reflexivity. }
  pose proof (press_setting "PageUp" w z 5 Hhz eq_refl) as Hpu.
  pose proof (press_setting "PageDown" w z (-5) Hhz eq_refl) as Hpd.
  unfold clamp in *.
  repeat split.
  - rewrite Hpu.
    rewrite (Hup _ _ (Hup _ _ (Hup _ _ (Hup _ _ (Hup _ _ Hhz))))).
    f_equal. f_equal. lia.
  - rewrite Hpd.
    rewrite (Hdown _ _ (Hdown _ _ (Hdown _ _ (Hdown _ _ (Hdown _ _ Hhz))))).
    f_equal. f_equal. lia.
  - intros Hlt. rewrite (Hdown _ _ (Hup _ _ Hhz)), Hhz. f_equal. f_equal. lia.
  - intros Hlt. rewrite (Hup _ _ (Hdown _ _ Hhz)), Hhz. f_equal. f_equal. lia.
  - rewrite (Hdown _ _ (Hup _ _ Hhz)). f_equal. f_equal. lia.
  - rewrite (Hup _ _ (Hdown _ _ Hhz)). f_equal. f_equal. lia.
Qed.

Lemma key_presses_compose_witness :
  currentHz (press "ArrowUp" (press "ArrowUp" (press "ArrowUp"
              (press "ArrowUp" (press "ArrowUp" page)))))
  = currentHz (press "PageUp" page) /\
  currentHz (press "ArrowDown" (press "ArrowUp" page)) = currentHz page.
Proof.
  destruct (key_presses_compose page 30 eq_refl ltac:(lia)) as (H1 & _ & H3 & _).
  split; [exact H1 | apply H3; lia].
Defined.

(** ** The pointer *)

Lemma stored_for_of_setting (x : jsnum) : frequency_setting x -> stored_for x = x.
Proof.
  intros (z & -> & Hz). rewrite stored_for_Num, round_half_up_Z.
  unfold clamp. f_equal. f_equal. lia.
Qed.

Section Drag.

Context {math : MathLib}.

(** X22. When [atan2] is within its range of -180 to 180 degrees,
    [getAngleFromPointer] is the angle of the pointer from the top of the
    knob, clockwise, normalised into (-180, 180]: it is [atan2 + 90], less a
    full turn when that exceeds 180. *)
Theorem pointer_angle_normalised (p : pointer) :
  let dx := clientX p - (rect_left (knob_rect p) + rect_width (knob_rect p) / 2) in
  let dy := clientY p - (rect_top (knob_rect p) + rect_height (knob_rect p) / 2) in
  -180 <= atan2_degrees dy dx -> atan2_degrees dy dx <= 180 ->
  -180 < getAngleFromPointer p /\ getAngleFromPointer p <= 180 /\
  (atan2_degrees dy dx <= 90 ->
   getAngleFromPointer p = atan2_degrees dy dx + 90) /\
  (90 < atan2_degrees dy dx ->
   getAngleFromPointer p = atan2_degrees dy dx + 90 - 360).
Proof.
  intros dx dy Hlo Hhi. unfold getAngleFromPointer. fold dx dy.
  cbv zeta.
  destruct (Qle_bool (atan2_degrees dy dx + 90) 180) eqn:E; cbn [negb].
  - apply Qle_bool_iff in E. repeat split; lra.
  - assert (~ atan2_degrees dy dx + 90 <= 180) as Hgt.
    { intros H. apply Qle_bool_iff in H. congruence. }
    repeat split; lra.
Qed.

Lemma pointerMove_dragging (p : pointer) (u : Ui) (k : jsnum) :
  dragging u = true -> knobEl (session u) = Some k ->
  pointerMove p u
  = (Normal tt,
     mkUi (snd (setHz (angleToHz (Num (getAngleFromPointer p))) (session u)))
          true (mouse_listening u) (touch_listening u)).
Proof.
  intros Hd Hk. unfold pointerMove. rewrite Hd, Hk. cbn [negb]. cbv zeta.
  rewrite setHz_completes; [reflexivity |].
  rewrite stored_for_of_setting by apply angleToHz_setting.
  destruct (angleToHz_setting (getAngleFromPointer p)) as (z & -> & _).
  reflexivity.
Qed.

Lemma setHz_keeps_knobEl (hz : jsnum) (w : World) (k : jsnum) :
  knobEl w = Some k -> exists k', knobEl (snd (setHz hz w)) = Some k'.
Proof.
  intros H. destruct (setHz_display hz w) as (_ & -> & _). rewrite H.
  eexists. reflexivity.
Qed.

(** X23. A drag follows the pointer: pressing the mouse on the knob starts
    the drag, installs the listeners and stores [angleToHz] of the pointer's
    angle, every move during the drag stores that of the new angle, always a
    frequency between 20 and 120, and releasing ends the drag without
    changing the frequency, later moves being ignored. *)
Theorem drag_follows_pointer (u : Ui) (k : jsnum) (p p' p'' : pointer) :
  knobEl (session u) = Some k ->
  let u1 := dispatch (MouseDown p) u in
  let u2 := dispatch (MouseMove p') u1 in
  let u3 := dispatch MouseUp u2 in
  (dragging u1 = true /\ mouse_listening u1 = true /\
   currentHz (session u1) = angleToHz (Num (getAngleFromPointer p))) /\
  (dragging u2 = true /\
   currentHz (session u2) = angleToHz (Num (getAngleFromPointer p')) /\
   frequency_setting (currentHz (session u2))) /\
  (dragging u3 = false /\ mouse_listening u3 = false /\
   touch_listening u3 = false /\ session u3 = session u2) /\
  dispatch (MouseMove p'') u3 = u3.
Proof.
  intros Hk u1 u2 u3.
  assert (u1 = mkUi (snd (setHz (angleToHz (Num (getAngleFromPointer p))) (session u)))
                    true true (touch_listening u)) as E1.
  { unfold u1, dispatch. rewrite Hk.
    rewrite (pointerMove_dragging p _ k) by (reflexivity || exact Hk). reflexivity. }
  destruct (setHz_keeps_knobEl (angleToHz (Num (getAngleFromPointer p))) (session u) k Hk)
    as [k1 Hk1].
  assert (u2 = mkUi (snd (setHz (angleToHz (Num (getAngleFromPointer p'))) (session u1)))
                    true true (touch_listening u)) as E2.
  { unfold u2, dispatch. rewrite E1. cbn [mouse_listening].
    rewrite (pointerMove_dragging p' _ k1) by (reflexivity || exact Hk1).
    reflexivity. }
  assert (u3 = mkUi (session u2) false false false) as E3.
  { unfold u3, dispatch. rewrite E2. reflexivity. }
  split; [| split; [| split]].
  - rewrite E1. cbn [dragging mouse_listening session].
    rewrite setHz_stores, stored_for_of_setting by apply angleToHz_setting.
    auto.
  - rewrite E2. cbn [dragging session].
    rewrite setHz_stores, stored_for_of_setting by apply angleToHz_setting.
    split; [reflexivity |]. split; [reflexivity | apply angleToHz_setting].
  - rewrite E3. auto.
  - rewrite E3. reflexivity.
Qed.

Lemma moved_books (w : World) (u : Ui) (k : jsnum) (hz : jsnum) (m t : bool) :
  drag_books w u -> knobEl (session u) = Some k ->
  frequency_setting hz -> (m || t)%bool = true ->
  drag_books w (mkUi (snd (setHz hz (session u))) true m t).
Proof.
  intros (Hd & Hnone & Hk & Hg & Ht & Ha & Hf) Hku Hhz Hmt.
  destruct (setHz_session hz (session u)) as (S1 & S2 & _ & _ & _ & _ & _ & S8).
  destruct (setHz_keeps_knobEl hz (session u) k Hku) as [k' Hk'].
  assert (knobEl w <> None) as Hkw.
  { intros H. apply Hk in H. congruence. }
  unfold drag_books. cbn [dragging mouse_listening touch_listening session].
  rewrite S1, S2, S8, Hk', Hmt.
  split; [reflexivity |]. split; [intros H; contradiction |].
  split; [split; intros H; [discriminate | contradiction] |].
  split; [exact Hg |]. split; [exact Ht |]. split; [exact Ha |].
  intros _. rewrite setHz_stores, stored_for_of_setting by exact Hhz. exact Hhz.
Qed.

Lemma listening_has_knob (w : World) (u : Ui) :
  drag_books w u ->
  (mouse_listening u || touch_listening u)%bool = true ->
  dragging u = true /\ exists k, knobEl (session u) = Some k.
Proof.
  intros (Hd & Hnone & Hk & _) Hl. split; [rewrite Hd; exact Hl |].
  destruct (knobEl (session u)) as [k|] eqn:Hku; [eexists; reflexivity |].
  exfalso. assert (knobEl w = None) as Hkw by (apply Hk; reflexivity).
  rewrite (Hnone Hkw) in Hl. discriminate.
Qed.

Lemma released_books (w : World) (u : Ui) :
  drag_books w u -> drag_books w (pointerUp u).
Proof.
  intros (Hd & Hnone & Hk & Hg & Ht & Ha & Hf).
  unfold drag_books, pointerUp. cbn [dragging mouse_listening touch_listening session].
  split; [reflexivity |]. split; [| repeat split; tauto].
  intros H. rewrite (Hnone H). reflexivity.
Qed.

Lemma dispatch_books (w : World) (e : pointer_event) (u : Ui) :
  drag_books w u -> drag_books w (dispatch e u).
Proof.
  intros Hb. destruct e as [p | p | | p | p | ]; cbn [dispatch].
  - destruct (knobEl (session u)) as [k|] eqn:Hku; [| exact Hb].
    rewrite (pointerMove_dragging p
               (mkUi (session u) true (mouse_listening u) (touch_listening u))
               k eq_refl Hku).
    cbn [session dragging mouse_listening touch_listening].
    apply (moved_books w u k); [exact Hb | exact Hku | | reflexivity].
    apply angleToHz_setting.
  - destruct (mouse_listening u) eqn:Hm; [| exact Hb].
    destruct (listening_has_knob w u Hb) as (Hdrag & k & Hku);
      [rewrite Hm; reflexivity |].
    rewrite (pointerMove_dragging p u k Hdrag Hku). cbn [snd]. rewrite Hm.
    apply (moved_books w u k); [exact Hb | exact Hku | | reflexivity].
    apply angleToHz_setting.
  - destruct (mouse_listening u); [apply released_books |]; exact Hb.
  - destruct (knobEl (session u)) as [k|] eqn:Hku; [| exact Hb].
    rewrite (pointerMove_dragging p
               (mkUi (session u) true (mouse_listening u) (touch_listening u))
               k eq_refl Hku).
    cbn [session dragging mouse_listening touch_listening].
    apply (moved_books w u k); [exact Hb | exact Hku | | apply orb_true_r].
    apply angleToHz_setting.
  - destruct (touch_listening u) eqn:Hm; [| exact Hb].
    destruct (listening_has_knob w u Hb) as (Hdrag & k & Hku);
      [rewrite Hm; apply orb_true_r |].
    rewrite (pointerMove_dragging p u k Hdrag Hku). cbn [snd]. rewrite Hm.
    apply (moved_books w u k); [exact Hb | exact Hku | | apply orb_true_r].
    apply angleToHz_setting.
  - destruct (touch_listening u); [apply released_books |]; exact Hb.
Qed.

(** X24. Pointer events keep the books of the drag and stay out of the audio
    session: after any sequence of mouse and touch events from rest,
    [dragging] is true exactly while a listener is installed on [window],
    the running flags and the indicator are as before, a stored frequency
    between 20 and 120 is still one, and on a page without the knob element
    nothing changes at all. *)
Theorem gestures_keep_the_books (w : World) (l : list pointer_event) :
  drag_books w (gestures l (at_rest w)).
Proof.
  assert (forall u, drag_books w u -> drag_books w (gestures l u)) as Hrun.
  { induction l as [|e l IH]; intros u H; [exact H |].
    apply (IH (dispatch e u)), dispatch_books, H. }
  apply Hrun. unfold drag_books, at_rest. cbn. repeat split; tauto.
Qed.

End Drag.

Lemma pointer_angle_normalised_witness :
  let p := mkPointer (mkRect 0 0 100 100) 0 50 in
  (-180 <= 180 /\ 180 <= 180) /\
  @getAngleFromPointer axis_math p = 180 + 90 - 360.
Proof.
  intros p.
  assert (-180 <= 180) as Hlo by (unfold Qle; simpl; lia).
  assert (180 <= 180) as Hhi by (unfold Qle; simpl; lia).
  split; [split; [exact Hlo | exact Hhi] |].
  destruct (@pointer_angle_normalised axis_math p Hlo Hhi) as (_ & _ & _ & H).
  apply H. reflexivity.
Defined.

Lemma drag_follows_pointer_witness :
  let top := mkPointer (mkRect 0 0 100 100) 50 0 in
  let right := mkPointer (mkRect 0 0 100 100) 100 50 in
  let u1 := @dispatch axis_math (MouseDown top) (at_rest page) in
  let u2 := @dispatch axis_math (MouseMove right) u1 in
  knobEl (session (at_rest page)) = Some (Num 30) /\
  currentHz (session u1) = Num 70 /\
  currentHz (session u2) = Num 103 /\
  dragging (@dispatch axis_math MouseUp u2) = false.
Proof.
  intros top right u1 u2.
  assert (knobEl (session (at_rest page)) = Some (Num 30)) as Hk by reflexivity.
  split; [exact Hk |].
  destruct (@drag_follows_pointer axis_math (at_rest page) (Num 30) top right top Hk)
    as ((_ & _ & H1) & (_ & H2 & _) & (H3 & _) & _).
  split; [| split].
  - unfold u1. rewrite H1. reflexivity.
  - unfold u2, u1. rewrite H2. reflexivity.
  - exact H3.
Defined.
